(** * Spectacle: the core object ([SpectacleCore.cpp])

    A shallow embedding of the orchestration layer of the screenshot
    tool: the constructor, the property accessors and the slots of
    [SpectacleCore], run over an explicit object state and an explicit
    trace of the calls made into the toolkit (timers, message boxes,
    notifications, the export manager, the main window).

    Everything the file calls but does not define (the window system, the
    directory and URL helpers, the configuration, the capture back ends,
    the export manager's save routine) is taken from an environment
    record [Env]; no property of those is assumed unless a statement says
    so. *)

From Stdlib Require Import ZArith List Ascii String Bool Lia.
Import ListNotations.
Open Scope string_scope.
Open Scope list_scope.
Open Scope Z_scope.

(** ** Machine integers *)

(** [int] is 32 bits and [qint64] is 64 bits wide.  A value that does not
    fit is reduced modulo the width (two's complement): that is what the
    narrowing of a [qint64] to an [int] does on the supported compilers.
    For [int + int] an overflow is undefined in C++; the model takes the
    wrapped value there, and no statement below relies on it. *)
Definition wrap (bits z : Z) : Z :=
  (z + 2 ^ (bits - 1)) mod 2 ^ bits - 2 ^ (bits - 1).

Definition to_int (z : Z) : Z := wrap 32 z.
Definition to_qint64 (z : Z) : Z := wrap 64 z.

Definition INT_MIN : Z := - 2 ^ 31.
Definition INT_MAX : Z := 2 ^ 31 - 1.

Definition is_int (z : Z) : Prop := INT_MIN <= z <= INT_MAX.
Definition is_qint64 (z : Z) : Prop := - 2 ^ 63 <= z <= 2 ^ 63 - 1.

(** [a + b] on two [int]s. *)
Definition int_add (a b : Z) : Z := to_int (a + b).
(** [a + b] where one side is a [qint64]: the sum is a [qint64]. *)
Definition qint64_add (a b : Z) : Z := to_qint64 (a + b).

(** ** Toolkit values *)

(** A [QString] is null (default constructed), or holds characters; a
    null string is also empty. *)
Inductive QString : Type :=
| QNull
| QStr (s : string).

Definition isNull (s : QString) : bool :=
  match s with QNull => true | QStr _ => false end.

Definition isEmpty (s : QString) : bool :=
  match s with
  | QNull => true
  | QStr EmptyString => true
  | QStr (String _ _) => false
  end.

(** What this file observes of a [QUrl]. *)
Record QUrl : Type := mkQUrl {
  isValid : bool;
  isLocalFile : bool;
  (** [adjusted(RemoveFilename | StripTrailingSlash).path()] *)
  dirPath : string;
  fileName : string;
  toLocalFile : QString
}.

(** [QUrl()] *)
Definition QUrl_null : QUrl := mkQUrl false false "" "" QNull.

Inductive QPixmap : Type :=
| NullPixmap
| Pixmap (id : nat).

(** [KWindowSystem::platform()] *)
Inductive Platform : Type :=
| PlatformUnknown
| PlatformX11
| PlatformWayland.

(** ** Enumerations of the program *)

Inductive StartMode : Type :=
| DBusMode
| BackgroundMode
| GuiMode.

(** [ImageGrabber::GrabMode]: the enumerators [doNotify] names, and the
    remaining ones under [OtherGrabMode]. *)
Inductive GrabMode : Type :=
| FullScreen
| CurrentScreen
| ActiveWindow
| WindowUnderCursor
| RectangularRegion
| OtherGrabMode.

(** The three concrete [ImageGrabber] classes. *)
Inductive GrabberKind : Type :=
| X11ImageGrabber
| KWinWaylandImageGrabber
| DummyImageGrabber.

Record ImageGrabber : Type := mkImageGrabber {
  kind : GrabberKind;
  mGrabMode : GrabMode;
  mCapturePointer : bool;
  mCaptureDecorations : bool
}.

(** [new X11ImageGrabber] and the like; the constructor of [SpectacleCore]
    overwrites the three settings before anything reads them. *)
Definition newImageGrabber (k : GrabberKind) : ImageGrabber :=
  mkImageGrabber k OtherGrabMode false false.

Record KSMainWindow : Type := mkKSMainWindow {
  onClickAvailable : bool
}.

(** Modelled from the spec: [ExportManager] (its source is not part of the
    excerpt) holds "a single in-memory pixmap"; [setPixmap] stores its
    argument in that one slot. *)
Record ExportManager : Type := mkExportManager {
  pixmap : QPixmap
}.

(** Modelled from the spec: [ExportManager::setPixmap] (not part of the
    excerpt) replaces the stored pixmap. *)
Definition setPixmap (p : QPixmap) (_ : ExportManager) : ExportManager :=
  mkExportManager p.

(** ** Signals, slots and connections *)

Inductive Sender : Type :=
| TheExportManager
| TheCore
| TheImageGrabber
| TheMainWindow
| TheNotification (id : nat).

Inductive SignalName : Type :=
| sig_errorMessage
| sig_pixmapChanged
| sig_imageGrabFailed
| sig_imageSaved
| sig_forceNotify
| sig_newScreenshotRequest
| sig_dragAndDropRequest
| sig_action1Activated
| sig_destroyed.

(** The receiving end of a [connect]: a slot of the core, its [allDone]
    signal, or the lambda of [doNotify] with its captured URL. *)
Inductive Receiver : Type :=
| slot_showErrorMessage
| slot_screenshotUpdated
| slot_screenshotFailed
| slot_doCopyPath
| slot_doNotify
| slot_takeNewScreenshot
| slot_doStartDragAndDrop
| signal_allDone
| lambda_openSaved (savedAt : QUrl).

Record Connection : Type := mkConnection {
  sender : Sender;
  signal : SignalName;
  receiver : Receiver
}.

(** A signal being emitted, with its arguments. *)
Inductive Emission : Type :=
| ErrorMessage (from : Sender) (errString : QString)
| PixmapChanged (p : QPixmap)
| ImageGrabFailed
| ImageSaved (savedAt : QUrl)
| ForceNotify (savedAt : QUrl)
| NewScreenshotRequest (mode : GrabMode) (timeout : Z)
                       (includePointer includeDecorations : bool)
| DragAndDropRequest
| Action1Activated (id : nat)
| Destroyed (id : nat).

(** The signals of [ExportManager] the program connects to. *)
Inductive ExportEmission : Type :=
| ExportErrorMessage (errString : QString)
| ExportImageSaved (savedAt : QUrl)
| ExportForceNotify (savedAt : QUrl).

Definition fromExport (ev : ExportEmission) : Emission :=
  match ev with
  | ExportErrorMessage s => ErrorMessage TheExportManager s
  | ExportImageSaved u => ImageSaved u
  | ExportForceNotify u => ForceNotify u
  end.

Definition emitter (ev : Emission) : Sender :=
  match ev with
  | ErrorMessage from _ => from
  | PixmapChanged _ | ImageGrabFailed => TheImageGrabber
  | ImageSaved _ | ForceNotify _ => TheExportManager
  | NewScreenshotRequest _ _ _ _ | DragAndDropRequest => TheMainWindow
  | Action1Activated id | Destroyed id => TheNotification id
  end.

Definition signalOf (ev : Emission) : SignalName :=
  match ev with
  | ErrorMessage _ _ => sig_errorMessage
  | PixmapChanged _ => sig_pixmapChanged
  | ImageGrabFailed => sig_imageGrabFailed
  | ImageSaved _ => sig_imageSaved
  | ForceNotify _ => sig_forceNotify
  | NewScreenshotRequest _ _ _ _ => sig_newScreenshotRequest
  | DragAndDropRequest => sig_dragAndDropRequest
  | Action1Activated _ => sig_action1Activated
  | Destroyed _ => sig_destroyed
  end.

Definition Sender_eqb (a b : Sender) : bool :=
  match a, b with
  | TheExportManager, TheExportManager
  | TheCore, TheCore
  | TheImageGrabber, TheImageGrabber
  | TheMainWindow, TheMainWindow => true
  | TheNotification i, TheNotification j => Nat.eqb i j
  | _, _ => false
  end.

Definition SignalName_eqb (a b : SignalName) : bool :=
  match a, b with
  | sig_errorMessage, sig_errorMessage
  | sig_pixmapChanged, sig_pixmapChanged
  | sig_imageGrabFailed, sig_imageGrabFailed
  | sig_imageSaved, sig_imageSaved
  | sig_forceNotify, sig_forceNotify
  | sig_newScreenshotRequest, sig_newScreenshotRequest
  | sig_dragAndDropRequest, sig_dragAndDropRequest
  | sig_action1Activated, sig_action1Activated
  | sig_destroyed, sig_destroyed => true
  | _, _ => false
  end.

(** Does connection [c] listen to emission [ev]? *)
Definition listens (ev : Emission) (c : Connection) : bool :=
  Sender_eqb (sender c) (emitter ev) && SignalName_eqb (signal c) (signalOf ev).

(** ** The trace of calls into the toolkit *)

(** What a single-shot timer or a queued invocation runs. *)
Inductive Callback : Type :=
| doImageGrab
| allDone.

Record KNotification : Type := mkKNotification {
  notificationId : nat;
  title : QString;
  text : QString;
  actions : list QString;
  urls : list QUrl
}.

Inductive Effect : Type :=
| TimerSingleShot (msec : Z) (cb : Callback)
| InvokeQueued (cb : Callback)
| DoOnClickGrab
| DebugLine (s : QString)        (* qDebug() << "ERROR: " << s *)
| MessageBoxError (s : QString)  (* KMessageBox::error(0, s) *)
| EmitGrabFailed
| EmitAllDone
| ExportDoSave (savePath : QUrl)
| NewMainWindow (onClick : bool)
| MainWindowShow
| MainWindowSetScreenshotAndShow (p : QPixmap)
| NotificationSendEvent (n : KNotification)
| KRunOpen (url : QUrl)
| ClipboardSetText (s : QString)
| SetQuitOnLastWindowClosed (b : bool)
| DragExec (tempFile : QUrl) (p : QPixmap)
| ExportTempSave.

Definition Trace : Type := list Effect.

(** ** The environment *)

Record Env : Type := mkEnv {
  (** was the program compiled with [XCB_FOUND]? *)
  XCB_FOUND : bool;
  platform : Platform;
  (** [KWindowSystem::compositingActive()] *)
  compositingActive : bool;
  (** the virtual [ImageGrabber::onClickGrabSupported()] *)
  onClickGrabSupported : GrabberKind -> bool;
  (** [guiConfig.readEntry("includePointer", true)] *)
  cfgIncludePointer : bool;
  (** [guiConfig.readEntry("includeDecorations", true)] *)
  cfgIncludeDecorations : bool;
  (** [QDir::isRelativePath] *)
  isRelativePath : QString -> bool;
  (** [QDir::current().absoluteFilePath] *)
  absoluteFilePath : QString -> QString;
  (** [QUrl::fromUserInput] *)
  fromUserInput : QString -> QUrl;
  (** [SpectacleConfig::instance()->copySaveLocationToClipboard()] *)
  copySaveLocationToClipboard : bool;
  (** [QStandardPaths::writableLocation(QStandardPaths::PicturesLocation)] *)
  picturesLocation : string;
  (** the signals [ExportManager::doSave] emits before it returns *)
  doSaveEmits : QPixmap -> QUrl -> list ExportEmission;
  (** [ExportManager::tempSave()]: the URL it returns, and the signals it
      emits before it returns *)
  tempSave : QPixmap -> QUrl * list ExportEmission
}.

Definition isPlatformX11 (e : Env) : bool :=
  match platform e with PlatformX11 => true | _ => false end.

Definition isPlatformWayland (e : Env) : bool :=
  match platform e with PlatformWayland => true | _ => false end.

(** ** The object *)

Record SpectacleCore : Type := mkSpectacleCore {
  mExportManager : ExportManager;
  mStartMode : StartMode;
  mNotify : bool;
  mFileNameString : QString;
  mFileNameUrl : QUrl;
  mImageGrabber : option ImageGrabber;
  mMainWindow : option KSMainWindow;
  isGuiInited : bool;
  (** the connections made so far, oldest first *)
  connections : list Connection;
  (** how many [KNotification]s have been created *)
  notificationCount : nat
}.

(** ** A monad for the member functions

    A member function reads and updates the object, appends to the trace,
    and is undefined (here: [None]) when it dereferences a null
    [mImageGrabber] or [mMainWindow]. *)

Definition M (A : Type) : Type :=
  SpectacleCore -> option (A * SpectacleCore * Trace).

Definition ret {A : Type} (a : A) : M A :=
  fun st => Some (a, st, []).

Definition bind {A B : Type} (m : M A) (f : A -> M B) : M B :=
  fun st =>
    match m st with
    | None => None
    | Some (a, st1, t1) =>
        match f a st1 with
        | None => None
        | Some (b, st2, t2) => Some (b, st2, t1 ++ t2)
        end
    end.

Notation "x <- c ;; k" := (bind c (fun x => k))
  (at level 61, c at next level, right associativity).
Notation "c ;; k" := (bind c (fun _ => k))
  (at level 61, right associativity).

Definition get : M SpectacleCore := fun st => Some (st, st, []).
Definition modify (f : SpectacleCore -> SpectacleCore) : M unit :=
  fun st => Some (tt, f st, []).
Definition call (x : Effect) : M unit := fun st => Some (tt, st, [x]).
Definition nullDeref {A : Type} : M A := fun _ => None.
Definition when (b : bool) (m : M unit) : M unit := if b then m else ret tt.

(** *** Field updates *)

Definition set_mExportManager (em : ExportManager) (st : SpectacleCore) :=
  mkSpectacleCore em (mStartMode st) (mNotify st) (mFileNameString st)
    (mFileNameUrl st) (mImageGrabber st) (mMainWindow st) (isGuiInited st)
    (connections st) (notificationCount st).

Definition set_mStartMode (m : StartMode) (st : SpectacleCore) :=
  mkSpectacleCore (mExportManager st) m (mNotify st) (mFileNameString st)
    (mFileNameUrl st) (mImageGrabber st) (mMainWindow st) (isGuiInited st)
    (connections st) (notificationCount st).

Definition set_mFileName (s : QString) (u : QUrl) (st : SpectacleCore) :=
  mkSpectacleCore (mExportManager st) (mStartMode st) (mNotify st) s u
    (mImageGrabber st) (mMainWindow st) (isGuiInited st)
    (connections st) (notificationCount st).

Definition set_mImageGrabber (g : option ImageGrabber) (st : SpectacleCore) :=
  mkSpectacleCore (mExportManager st) (mStartMode st) (mNotify st)
    (mFileNameString st) (mFileNameUrl st) g (mMainWindow st) (isGuiInited st)
    (connections st) (notificationCount st).

Definition set_mMainWindow (w : option KSMainWindow) (st : SpectacleCore) :=
  mkSpectacleCore (mExportManager st) (mStartMode st) (mNotify st)
    (mFileNameString st) (mFileNameUrl st) (mImageGrabber st) w (isGuiInited st)
    (connections st) (notificationCount st).

Definition set_isGuiInited (b : bool) (st : SpectacleCore) :=
  mkSpectacleCore (mExportManager st) (mStartMode st) (mNotify st)
    (mFileNameString st) (mFileNameUrl st) (mImageGrabber st) (mMainWindow st) b
    (connections st) (notificationCount st).

Definition set_connections (cs : list Connection) (st : SpectacleCore) :=
  mkSpectacleCore (mExportManager st) (mStartMode st) (mNotify st)
    (mFileNameString st) (mFileNameUrl st) (mImageGrabber st) (mMainWindow st)
    (isGuiInited st) cs (notificationCount st).

Definition set_notificationCount (n : nat) (st : SpectacleCore) :=
  mkSpectacleCore (mExportManager st) (mStartMode st) (mNotify st)
    (mFileNameString st) (mFileNameUrl st) (mImageGrabber st) (mMainWindow st)
    (isGuiInited st) (connections st) n.

(** [connect(sender, signal, this, receiver)] *)
Definition connect (s : Sender) (sg : SignalName) (r : Receiver) : M unit :=
  modify (fun st => set_connections (connections st ++ [mkConnection s sg r]) st).

(** [mImageGrabber->...] *)
Definition theImageGrabber : M ImageGrabber :=
  st <- get ;;
  match mImageGrabber st with
  | Some g => ret g
  | None => nullDeref
  end.

(** [mMainWindow->...] *)
Definition theMainWindow : M KSMainWindow :=
  st <- get ;;
  match mMainWindow st with
  | Some w => ret w
  | None => nullDeref
  end.

(** [ImageGrabber] is not part of the excerpt.  Its three setters are
    taken to store their argument in the grabber, where [grabMode()] and the
    capture read it; the code relies on nothing else of them. *)
Definition grabber_setGrabMode (m : GrabMode) : M unit :=
  g <- theImageGrabber ;;
  modify (set_mImageGrabber
    (Some (mkImageGrabber (kind g) m (mCapturePointer g) (mCaptureDecorations g)))).

Definition grabber_setCapturePointer (b : bool) : M unit :=
  g <- theImageGrabber ;;
  modify (set_mImageGrabber
    (Some (mkImageGrabber (kind g) (mGrabMode g) b (mCaptureDecorations g)))).

Definition grabber_setCaptureDecorations (b : bool) : M unit :=
  g <- theImageGrabber ;;
  modify (set_mImageGrabber
    (Some (mkImageGrabber (kind g) (mGrabMode g) (mCapturePointer g) b))).

Definition StartMode_eqb (a b : StartMode) : bool :=
  match a, b with
  | DBusMode, DBusMode | BackgroundMode, BackgroundMode | GuiMode, GuiMode => true
  | _, _ => false
  end.

Definition isNullPtr {A : Type} (p : option A) : bool :=
  match p with None => true | Some _ => false end.

(** [i18n] and [i18nc]: the untranslated text. *)
Definition i18n (s : string) : QString := QStr s.

(** ** Member functions *)

(** [KWindowSystem::compositingActive() ? 200 : 50] *)
Definition compositorDelay (e : Env) : Z :=
  if compositingActive e then 200 else 50.

Definition filename (st : SpectacleCore) : QString := mFileNameString st.

Definition setFilename (e : Env) (name : QString) : M unit :=
  modify (set_mFileName name (fromUserInput e name)).

Definition grabMode : M GrabMode :=
  g <- theImageGrabber ;; ret (mGrabMode g).

Definition setGrabMode (m : GrabMode) : M unit := grabber_setGrabMode m.

Definition initGui (e : Env) : M unit :=
  st <- get ;;
  if negb (isGuiInited st) then
    g <- theImageGrabber ;;
    let onClick := onClickGrabSupported e (kind g) in
    modify (set_mMainWindow (Some (mkKSMainWindow onClick))) ;;
    call (NewMainWindow onClick) ;;
    connect TheMainWindow sig_newScreenshotRequest slot_takeNewScreenshot ;;
    connect TheMainWindow sig_dragAndDropRequest slot_doStartDragAndDrop ;;
    modify (set_isGuiInited true) ;;
    call (InvokeQueued doImageGrab)
  else ret tt.

Definition dbusStartAgent (e : Env) : M unit :=
  call (SetQuitOnLastWindowClosed true) ;;
  st <- get ;;
  if negb (StartMode_eqb (mStartMode st) GuiMode) then
    modify (set_mStartMode GuiMode) ;;
    initGui e
  else ret tt.

Definition takeNewScreenshot (e : Env) (mode : GrabMode) (timeout : Z)
    (includePointer includeDecorations : bool) : M unit :=
  grabber_setGrabMode mode ;;
  grabber_setCapturePointer includePointer ;;
  grabber_setCaptureDecorations includeDecorations ;;
  if timeout <? 0 then
    theImageGrabber ;;
    call DoOnClickGrab
  else
    let msec := compositorDelay e in
    call (TimerSingleShot (int_add timeout msec) doImageGrab).

Definition showErrorMessage (errString : QString) : M unit :=
  call (DebugLine errString) ;;
  st <- get ;;
  when (StartMode_eqb (mStartMode st) GuiMode) (call (MessageBoxError errString)).

Definition titleFor (m : GrabMode) : QString :=
  match m with
  | FullScreen => i18n "Full Screen Captured"
  | CurrentScreen => i18n "Current Screen Captured"
  | ActiveWindow => i18n "Active Window Captured"
  | WindowUnderCursor => i18n "Window Under Cursor Captured"
  | RectangularRegion => i18n "Rectangular Region Captured"
  | OtherGrabMode => QNull
  end.

Definition doNotify (e : Env) (savedAt : QUrl) : M unit :=
  st <- get ;;
  let id := notificationCount st in
  modify (set_notificationCount (S id)) ;;
  g <- theImageGrabber ;;
  let path := dirPath savedAt in
  let msg :=
    if String.eqb path (picturesLocation e) then
      i18n ("A screenshot was saved as '" ++ fileName savedAt
            ++ "' to your Pictures folder.")%string
    else
      i18n ("A screenshot was saved as '" ++ fileName savedAt
            ++ "' to '" ++ path ++ "'.")%string in
  connect (TheNotification id) sig_action1Activated (lambda_openSaved savedAt) ;;
  connect (TheNotification id) sig_destroyed signal_allDone ;;
  call (NotificationSendEvent
          (mkKNotification id (titleFor (mGrabMode g)) msg [i18n "Open"]
             [savedAt])).

Definition doCopyPath (e : Env) (savedAt : QUrl) : M unit :=
  when (copySaveLocationToClipboard e)
       (call (ClipboardSetText (toLocalFile savedAt))).


(** *** Signals of the export manager

    A direct connection runs the receiver at once, inside the emitting
    call; so what [doSave] emits before it returns is handled inside
    [screenshotUpdated]. *)

(** Runs one receiver of an export-manager signal.  The program connects
    these signals to [showErrorMessage], [doCopyPath] and [doNotify]
    only. *)
Definition invokeExport (e : Env) (r : Receiver) (ev : ExportEmission) : M unit :=
  match r, ev with
  | slot_showErrorMessage, ExportErrorMessage s => showErrorMessage s
  | slot_doCopyPath, ExportImageSaved u => doCopyPath e u
  | slot_doNotify, ExportImageSaved u => doNotify e u
  | slot_doNotify, ExportForceNotify u => doNotify e u
  | _, _ => ret tt
  end.

(** Runs the receivers of the listed connections, in connection order. *)
Fixpoint invokeEach {Ev : Type} (invoke : Receiver -> Ev -> M unit)
    (cs : list Connection) (ev : Ev) : M unit :=
  match cs with
  | [] => ret tt
  | c :: cs' => invoke (receiver c) ev ;; invokeEach invoke cs' ev
  end.

(** An emission reaches the connections that exist when it starts. *)
Definition emitExport (e : Env) (ev : ExportEmission) : M unit :=
  st <- get ;;
  invokeEach (invokeExport e) (filter (listens (fromExport ev)) (connections st)) ev.

Fixpoint emitExports (e : Env) (evs : list ExportEmission) : M unit :=
  match evs with
  | [] => ret tt
  | ev :: evs' => emitExport e ev ;; emitExports e evs'
  end.

(** [mExportManager->doSave(savePath)] *)
Definition exportDoSave (e : Env) (savePath : QUrl) : M unit :=
  call (ExportDoSave savePath) ;;
  st <- get ;;
  emitExports e (doSaveEmits e (pixmap (mExportManager st)) savePath).

(** Lines 273 to 289.  The mime data and the [QDrag] are set up from the
    temporary file and the stored pixmap; [DragExec] stands for
    [dragHandler->exec(Qt::CopyAction)] with both. *)
Definition doStartDragAndDrop (e : Env) : M unit :=
  call ExportTempSave ;;
  st <- get ;;
  let saved := tempSave e (pixmap (mExportManager st)) in
  emitExports e (snd saved) ;;
  let tempFile := fst saved in
  if negb (isValid tempFile) then ret tt
  else
    st' <- get ;;
    call (DragExec tempFile (pixmap (mExportManager st'))).

Definition screenshotUpdated (e : Env) (p : QPixmap) : M unit :=
  modify (fun st => set_mExportManager (setPixmap p (mExportManager st)) st) ;;
  st <- get ;;
  match mStartMode st with
  | BackgroundMode | DBusMode =>
      when (mNotify st) (connect TheExportManager sig_imageSaved slot_doNotify) ;;
      let savePath :=
        if StartMode_eqb (mStartMode st) BackgroundMode
           && isValid (mFileNameUrl st) && isLocalFile (mFileNameUrl st)
        then mFileNameUrl st else QUrl_null in
      exportDoSave e savePath ;;
      when (negb (mNotify st)) (call EmitAllDone)
  | GuiMode =>
      theMainWindow ;;
      call (MainWindowSetScreenshotAndShow p)
  end.

(** The [BackgroundMode] case has no [break]: it falls through into the
    [DBusMode] case. *)
Definition screenshotFailed : M unit :=
  st <- get ;;
  match mStartMode st with
  | BackgroundMode =>
      showErrorMessage (i18n "Screenshot capture canceled or failed") ;;
      call EmitGrabFailed ;;
      call EmitAllDone
  | DBusMode =>
      call EmitGrabFailed ;;
      call EmitAllDone
  | GuiMode =>
      theMainWindow ;;
      call MainWindowShow
  end.

(** ** The constructor *)

(** The member initialisers; [em] is the state of the [ExportManager]
    singleton. *)
Definition initialMembers (em : ExportManager) (startMode : StartMode)
    (notifyOnGrab : bool) : SpectacleCore :=
  mkSpectacleCore em startMode notifyOnGrab QNull QUrl_null None None false [] 0.

(** Lines 65 to 76: the choice of the capture back end. *)
Definition selectImageGrabber (e : Env) : M unit :=
  when (XCB_FOUND e)
    (when (isPlatformX11 e)
       (modify (set_mImageGrabber (Some (newImageGrabber X11ImageGrabber))))) ;;
  st <- get ;;
  when (isNullPtr (mImageGrabber st) && isPlatformWayland e)
    (modify (set_mImageGrabber (Some (newImageGrabber KWinWaylandImageGrabber)))) ;;
  st <- get ;;
  when (isNullPtr (mImageGrabber st))
    (modify (set_mImageGrabber (Some (newImageGrabber DummyImageGrabber)))).

(** Lines 82 to 84: the delay the constructor goes on with. *)
Definition effectiveDelay (onClickSupported : bool) (delayMsec : Z) : Z :=
  if negb onClickSupported && (delayMsec <? 0) then 0 else delayMsec.

(** The constructor body.  [saveFileName] is passed by reference: the
    result is its value on return. *)
Definition constructorBody (e : Env) (startMode : StartMode)
    (grabMode0 : GrabMode) (saveFileName : QString) (delayMsec : Z)
    : M QString :=
  saveFileName' <-
    (if negb (isEmpty saveFileName || isNull saveFileName) then
       let name :=
         if isRelativePath e saveFileName
         then absoluteFilePath e saveFileName else saveFileName in
       setFilename e name ;; ret name
     else ret saveFileName) ;;
  selectImageGrabber e ;;
  grabber_setGrabMode grabMode0 ;;
  grabber_setCapturePointer (cfgIncludePointer e) ;;
  grabber_setCaptureDecorations (cfgIncludeDecorations e) ;;
  g <- theImageGrabber ;;
  let delayMsec' := effectiveDelay (onClickGrabSupported e (kind g)) delayMsec in
  connect TheExportManager sig_errorMessage slot_showErrorMessage ;;
  connect TheCore sig_errorMessage slot_showErrorMessage ;;
  connect TheImageGrabber sig_pixmapChanged slot_screenshotUpdated ;;
  connect TheImageGrabber sig_imageGrabFailed slot_screenshotFailed ;;
  connect TheExportManager sig_imageSaved slot_doCopyPath ;;
  connect TheExportManager sig_forceNotify slot_doNotify ;;
  match startMode with
  | DBusMode => ret tt
  | BackgroundMode =>
      let msec := to_int (qint64_add (compositorDelay e) delayMsec') in
      call (TimerSingleShot msec doImageGrab)
  | GuiMode => initGui e
  end ;;
  ret saveFileName'.

Definition construct (e : Env) (em : ExportManager) (startMode : StartMode)
    (grabMode0 : GrabMode) (saveFileName : QString) (delayMsec : Z)
    (notifyOnGrab : bool) : option (QString * SpectacleCore * Trace) :=
  constructorBody e startMode grabMode0 saveFileName delayMsec
    (initialMembers em startMode notifyOnGrab).

(** ** Delivery of signals; the event loop *)

Definition invoke (e : Env) (r : Receiver) (ev : Emission) : M unit :=
  match r, ev with
  | slot_showErrorMessage, ErrorMessage _ s => showErrorMessage s
  | slot_screenshotUpdated, PixmapChanged p => screenshotUpdated e p
  | slot_screenshotFailed, ImageGrabFailed => screenshotFailed
  | slot_doCopyPath, ImageSaved u => doCopyPath e u
  | slot_doNotify, ImageSaved u => doNotify e u
  | slot_doNotify, ForceNotify u => doNotify e u
  | slot_takeNewScreenshot, NewScreenshotRequest m t ip id =>
      takeNewScreenshot e m t ip id
  | slot_doStartDragAndDrop, DragAndDropRequest => doStartDragAndDrop e
  | signal_allDone, Destroyed _ => call EmitAllDone
  | lambda_openSaved savedAt, Action1Activated _ =>
      call (KRunOpen savedAt) ;;
      call (TimerSingleShot 250 allDone)
  | _, _ => ret tt
  end.

Definition emit (e : Env) (ev : Emission) : M unit :=
  st <- get ;;
  invokeEach (invoke e) (filter (listens ev) (connections st)) ev.

(** What the event loop can hand to the object: a signal of an object it
    is connected to, or a call of a public member. *)
Inductive Event : Type :=
| Emitted (ev : Emission)
| CallSetFilename (name : QString)
| CallSetGrabMode (m : GrabMode)
| CallDbusStartAgent.

Definition step (e : Env) (x : Event) : M unit :=
  match x with
  | Emitted ev => emit e ev
  | CallSetFilename name => setFilename e name
  | CallSetGrabMode m => setGrabMode m
  | CallDbusStartAgent => dbusStartAgent e
  end.

(** Each event comes with the environment it is handled in (compositing
    may be switched on or off between two events). *)
Fixpoint run (xs : list (Env * Event)) : M unit :=
  match xs with
  | [] => ret tt
  | (e, x) :: xs' => step e x ;; run xs'
  end.

(** * Closed forms

    What the constructor and [screenshotUpdated] compute, written out;
    [construct_eq] and [screenshotUpdated_eq] below prove them equal to
    the code. *)

Definition chosenKind (e : Env) : GrabberKind :=
  if XCB_FOUND e && isPlatformX11 e then X11ImageGrabber
  else if isPlatformWayland e then KWinWaylandImageGrabber
  else DummyImageGrabber.

(** The file name the constructor stores, [None] when it stores none. *)
Definition storedName (e : Env) (saveFileName : QString) : option QString :=
  if isEmpty saveFileName then None
  else if isRelativePath e saveFileName
       then Some (absoluteFilePath e saveFileName)
       else Some saveFileName.

Definition baseConnections : list Connection :=
  [ mkConnection TheExportManager sig_errorMessage slot_showErrorMessage;
    mkConnection TheCore sig_errorMessage slot_showErrorMessage;
    mkConnection TheImageGrabber sig_pixmapChanged slot_screenshotUpdated;
    mkConnection TheImageGrabber sig_imageGrabFailed slot_screenshotFailed;
    mkConnection TheExportManager sig_imageSaved slot_doCopyPath;
    mkConnection TheExportManager sig_forceNotify slot_doNotify ].

Definition guiConnections : list Connection :=
  [ mkConnection TheMainWindow sig_newScreenshotRequest slot_takeNewScreenshot;
    mkConnection TheMainWindow sig_dragAndDropRequest slot_doStartDragAndDrop ].

(** The calls the constructor makes, by start mode. *)
Definition startupTrace (e : Env) (startMode : StartMode) (delayMsec : Z) : Trace :=
  match startMode with
  | DBusMode => []
  | BackgroundMode =>
      [TimerSingleShot
         (to_int (qint64_add (compositorDelay e)
            (effectiveDelay (onClickGrabSupported e (chosenKind e)) delayMsec)))
         doImageGrab]
  | GuiMode =>
      [NewMainWindow (onClickGrabSupported e (chosenKind e));
       InvokeQueued doImageGrab]
  end.

Definition constructed (e : Env) (em : ExportManager) (startMode : StartMode)
    (grabMode0 : GrabMode) (saveFileName : QString) (notifyOnGrab : bool)
    : SpectacleCore :=
  let gui := StartMode_eqb startMode GuiMode in
  mkSpectacleCore em startMode notifyOnGrab
    (match storedName e saveFileName with Some s => s | None => QNull end)
    (match storedName e saveFileName with
     | Some s => fromUserInput e s | None => QUrl_null end)
    (Some (mkImageGrabber (chosenKind e) grabMode0
             (cfgIncludePointer e) (cfgIncludeDecorations e)))
    (if gui then Some (mkKSMainWindow (onClickGrabSupported e (chosenKind e)))
     else None)
    gui
    (baseConnections ++ (if gui then guiConnections else []))
    0.

(** The path [screenshotUpdated] hands to [doSave]. *)
Definition savePathOf (st : SpectacleCore) : QUrl :=
  if StartMode_eqb (mStartMode st) BackgroundMode
     && isValid (mFileNameUrl st) && isLocalFile (mFileNameUrl st)
  then mFileNameUrl st else QUrl_null.

(** The object when [screenshotUpdated] calls [doSave]. *)
Definition beforeSave (p : QPixmap) (st : SpectacleCore) : SpectacleCore :=
  set_connections
    (if mNotify st
     then connections st ++ [mkConnection TheExportManager sig_imageSaved slot_doNotify]
     else connections st)
    (set_mExportManager (setPixmap p (mExportManager st)) st).

(** * Specifications of member functions *)

(** [triple P m T Q]: from a state in [P], [m] returns (it dereferences
    no null pointer), every call in its trace satisfies [T], and the
    result and final state satisfy [Q]. *)
Definition triple {A : Type} (P : SpectacleCore -> Prop) (m : M A)
    (T : Effect -> Prop) (Q : A -> SpectacleCore -> Prop) : Prop :=
  forall st, P st ->
    exists a st' tr, m st = Some (a, st', tr) /\ Forall T tr /\ Q a st'.

(** [m] keeps the invariant [J] and only makes calls in [T]. *)
Definition keeps {A : Type} (J : SpectacleCore -> Prop) (T : Effect -> Prop)
    (m : M A) : Prop :=
  triple J m T (fun _ => J).

(** * Invariants *)

(** What every member function relies on: the image grabber exists, and
    so does the main window once the GUI is initialised or the object is
    in [GuiMode]. *)
Definition Sound (st : SpectacleCore) : Prop :=
  mImageGrabber st <> None
  /\ (mStartMode st = GuiMode -> mMainWindow st <> None)
  /\ (isGuiInited st = true -> mMainWindow st <> None).

(** The connections made after the six of the constructor. *)
Definition addedLater (c : Connection) : bool :=
  match sender c, signal c, receiver c with
  | TheExportManager, sig_imageSaved, slot_doNotify => true
  | TheMainWindow, sig_newScreenshotRequest, slot_takeNewScreenshot => true
  | TheMainWindow, sig_dragAndDropRequest, slot_doStartDragAndDrop => true
  | TheNotification _, sig_action1Activated, lambda_openSaved _ => true
  | TheNotification _, sig_destroyed, signal_allDone => true
  | _, _, _ => false
  end.

Definition Wired (st : SpectacleCore) : Prop :=
  exists extra,
    connections st = baseConnections ++ extra /\ forallb addedLater extra = true.

(** Calls that end the run: the [allDone] signal, now or from a timer. *)
Definition signalsDone (x : Effect) : bool :=
  match x with
  | EmitAllDone => true
  | TimerSingleShot _ allDone => true
  | _ => false
  end.

(** Calls that put a window on the screen. *)
Definition showsWindow (x : Effect) : bool :=
  match x with
  | NewMainWindow _ | MainWindowShow | MainWindowSetScreenshotAndShow _
  | MessageBoxError _ => true
  | _ => false
  end.


Definition isDbusStartAgent (x : Event) : bool :=
  match x with CallDbusStartAgent => true | _ => false end.

(** The last pixmap a run delivers, [p0] when it delivers none. *)
Fixpoint lastPixmap (xs : list (Env * Event)) (p0 : QPixmap) : QPixmap :=
  match xs with
  | [] => p0
  | (_, Emitted (PixmapChanged p)) :: xs' => lastPixmap xs' p
  | _ :: xs' => lastPixmap xs' p0
  end.

(** ** Invariants of the runs *)

(** The object is sound and its notify flag is [b]. *)
Definition Notifying (b : bool) (st : SpectacleCore) : Prop :=
  Sound st /\ mNotify st = b.

Definition Quiet (x : Effect) : Prop := signalsDone x = false.

Definition Windowless (x : Effect) : Prop := showsWindow x = false.

(** A sound object in [BackgroundMode] whose GUI was never initialised. *)
Definition Background (st : SpectacleCore) : Prop :=
  Sound st /\ mStartMode st = BackgroundMode
  /\ mMainWindow st = None /\ isGuiInited st = false.

(** A sound object with the constructor's connections in place, holding
    pixmap [p]. *)
Definition Holding (p : QPixmap) (st : SpectacleCore) : Prop :=
  Sound st /\ Wired st /\ pixmap (mExportManager st) = p.

Definition Any (x : Effect) : Prop := True.

(** * The rest of the object's life *)

(** [~SpectacleCore], lines 107 to 112: the main window is deleted when
    there is one.  The result lists what is deleted. *)
Definition destructor (st : SpectacleCore) : list KSMainWindow :=
  match mMainWindow st with
  | Some w => [w]
  | None => []
  end.

(** What a run can be expected to leave of the members: the back end, the
    notify flag, the start mode, the file name and its URL. *)
Record Profile : Type := mkProfile {
  pKind : GrabberKind;
  pNotify : bool;
  pMode : StartMode;
  pName : QString;
  pUrl : QUrl
}.

Definition profileOf (k : GrabberKind) (st : SpectacleCore) : Profile :=
  mkProfile k (mNotify st) (mStartMode st) (mFileNameString st) (mFileNameUrl st).

(** The only events that change the profile: [dbusStartAgent] moves the
    start mode to [GuiMode], [setFilename] replaces name and URL. *)
Definition profileStep (e : Env) (x : Event) (pr : Profile) : Profile :=
  match x with
  | CallDbusStartAgent =>
      mkProfile (pKind pr) (pNotify pr) GuiMode (pName pr) (pUrl pr)
  | CallSetFilename name =>
      mkProfile (pKind pr) (pNotify pr) (pMode pr) name (fromUserInput e name)
  | _ => pr
  end.

Fixpoint profileAfter (xs : list (Env * Event)) (pr : Profile) : Profile :=
  match xs with
  | [] => pr
  | (e, x) :: xs' => profileAfter xs' (profileStep e x pr)
  end.

(** The object agrees with profile [pr]; its GUI is initialised, and its
    main window exists, exactly in [GuiMode]. *)
Definition Tracked (pr : Profile) (st : SpectacleCore) : Prop :=
  (exists g, mImageGrabber st = Some g /\ kind g = pKind pr)
  /\ mNotify st = pNotify pr
  /\ mStartMode st = pMode pr
  /\ mFileNameString st = pName pr
  /\ mFileNameUrl st = pUrl pr
  /\ isGuiInited st = StartMode_eqb (pMode pr) GuiMode
  /\ isNullPtr (mMainWindow st) = negb (StartMode_eqb (pMode pr) GuiMode).

Definition isEmitted (x : Event) : bool :=
  match x with Emitted _ => true | _ => false end.

(** How many main windows a trace creates. *)
Definition windowsCreated (tr : Trace) : nat :=
  List.length (filter (fun x => match x with NewMainWindow _ => true | _ => false end) tr).

(** 1 once the GUI is initialised, 0 before. *)
Definition guiCount (st : SpectacleCore) : nat :=
  if isGuiInited st then 1%nat else 0%nat.

(** [accounts J f w m]: from a state in [J], [m] returns in a state in
    [J], and the weight [w] of its trace is what [f] grows by. *)
Definition accounts {A : Type} (J : SpectacleCore -> Prop)
    (f : SpectacleCore -> nat) (w : Trace -> nat) (m : M A) : Prop :=
  forall st, J st ->
    exists a st' tr,
      m st = Some (a, st', tr) /\ J st' /\ (w tr + f st = f st')%nat.

(** Is [c] the connection [screenshotUpdated] makes when the notify flag
    is on? *)
Definition notifiesOnSave (c : Connection) : bool :=
  match sender c, signal c, receiver c with
  | TheExportManager, sig_imageSaved, slot_doNotify => true
  | _, _, _ => false
  end.

Definition isNotification (x : Effect) : bool :=
  match x with NotificationSendEvent _ => true | _ => false end.

(** How many captures a run delivers. *)
Fixpoint captures (xs : list (Env * Event)) : nat :=
  match xs with
  | [] => 0%nat
  | (_, Emitted (PixmapChanged _)) :: xs' => S (captures xs')
  | _ :: xs' => captures xs'
  end.

(** What a failed save leaves in the log (and, in [GuiMode], on screen). *)
Definition errorSinks (m : StartMode) (msgs : list QString) : Trace :=
  flat_map (fun s => DebugLine s ::
                     (if StartMode_eqb m GuiMode then [MessageBoxError s] else []))
           msgs.

(** The text of the notification for a file saved at [u]. *)
Definition notificationText (e : Env) (u : QUrl) : QString :=
  if String.eqb (dirPath u) (picturesLocation e)
  then i18n ("A screenshot was saved as '" ++ fileName u
             ++ "' to your Pictures folder.")%string
  else i18n ("A screenshot was saved as '" ++ fileName u
             ++ "' to '" ++ dirPath u ++ "'.")%string.

(** The image grabber exists; the main window exists once the GUI is
    initialised, and the GUI is initialised exactly in [GuiMode]. *)
Definition Inited (st : SpectacleCore) : Prop :=
  mImageGrabber st <> None
  /\ isNullPtr (mMainWindow st) = negb (isGuiInited st)
  /\ isGuiInited st = StartMode_eqb (mStartMode st) GuiMode.

(** A sound, wired object in start mode [m] with notify flag [b] and [n]
    connections from [imageSaved] to [doNotify]. *)
Definition Listening (m : StartMode) (b : bool) (n : nat) (st : SpectacleCore)
    : Prop :=
  Sound st /\ Wired st /\ mStartMode st = m /\ mNotify st = b
  /\ List.length (filter notifiesOnSave (connections st)) = n.

Definition captureCount (x : Event) : nat :=
  match x with Emitted (PixmapChanged _) => 1%nat | _ => 0%nat end.

(** Connection [c] is not from a notification numbered [n] or higher. *)
Definition olderThan (n : nat) (c : Connection) : bool :=
  match sender c with
  | TheNotification id => Nat.ltb id n
  | _ => true
  end.

(** A sound object in which every connected notification has been
    created. *)
Definition Fresh (st : SpectacleCore) : Prop :=
  Sound st
  /\ forallb (olderThan (notificationCount st)) (connections st) = true.

(** A sound object in [GuiMode]. *)
Definition InGui (st : SpectacleCore) : Prop :=
  Sound st /\ mStartMode st = GuiMode.

(** Calls that save the capture or end the run. *)
Definition savesOrEnds (x : Effect) : bool :=
  match x with
  | ExportDoSave _ | EmitGrabFailed => true
  | _ => signalsDone x
  end.

Definition Interactive (x : Effect) : Prop := savesOrEnds x = false.

Definition fromNotification (x : Event) : bool :=
  match x with
  | Emitted (Action1Activated _) | Emitted (Destroyed _) => true
  | _ => false
  end.

(** Calls that start a drag. *)
Definition NoDrag (x : Effect) : Prop :=
  match x with DragExec _ _ => False | _ => True end.

(** * Sample environment and objects

    A Unix session: a path is relative unless it starts with a slash, the
    current directory is [/home/user], only the X11 back end supports
    grabbing on click, and a save succeeds at once. *)

Definition startsWithSlash (s : QString) : bool :=
  match s with
  | QStr (String "/"%char _) => true
  | _ => false
  end.

Definition unixAbsoluteFilePath (s : QString) : QString :=
  match s with
  | QNull => QStr "/home/user"
  | QStr n => if startsWithSlash s then s else QStr ("/home/user/" ++ n)%string
  end.

(** The sample URL of a path: the path itself is kept as the file name. *)
Definition unixFromUserInput (s : QString) : QUrl :=
  match s with
  | QNull => QUrl_null
  | QStr n =>
      if startsWithSlash s then mkQUrl true true "/" n s
      else mkQUrl true false "" n QNull
  end.

Definition savedUrl : QUrl :=
  mkQUrl true true "/home/user/Pictures" "Screenshot.png"
    (QStr "/home/user/Pictures/Screenshot.png").

Definition unixEnv (xcb : bool) (pf : Platform) (compositing : bool) : Env :=
  mkEnv xcb pf compositing
    (fun k => match k with X11ImageGrabber => true | _ => false end)
    true true
    (fun s => negb (startsWithSlash s))
    unixAbsoluteFilePath
    unixFromUserInput
    false
    "/home/user/Pictures"
    (fun _ savePath => [ExportImageSaved (if isValid savePath then savePath else savedUrl)])
    (fun _ => (QUrl_null, [])).

Definition X11Env : Env := unixEnv true PlatformX11 true.
Definition plainEnv : Env := unixEnv false PlatformUnknown false.
Definition noPixmap : ExportManager := mkExportManager NullPixmap.

(** The object after [SpectacleCore(BackgroundMode, FullScreen, "shot.png",
    0, true)] on an X11 session. *)
Definition backgroundCore : SpectacleCore :=
  constructed X11Env noPixmap BackgroundMode FullScreen (QStr "shot.png") true.

(** The object after [SpectacleCore(GuiMode, FullScreen, "", 0, false)]. *)
Definition guiCore : SpectacleCore :=
  constructed X11Env noPixmap GuiMode FullScreen QNull false.

Definition captureThenSaved : list (Env * Event) :=
  [ (X11Env, Emitted (PixmapChanged (Pixmap 1)));
    (X11Env, Emitted (ImageSaved savedUrl)) ].

Definition failingSaveEnv : Env :=
  mkEnv true PlatformX11 true (onClickGrabSupported X11Env) true true
    (isRelativePath X11Env) (absoluteFilePath X11Env) (fromUserInput X11Env)
    false (picturesLocation X11Env)
    (fun _ _ => [ExportErrorMessage (QStr "Cannot save")])
    (tempSave X11Env).

Definition twoCaptures : list (Env * Event) :=
  [ (X11Env, Emitted (PixmapChanged (Pixmap 1)));
    (X11Env, Emitted (PixmapChanged (Pixmap 2))) ].

Definition guiSession : list (Env * Event) :=
  [ (X11Env, Emitted (PixmapChanged (Pixmap 1)));
    (X11Env, Emitted (NewScreenshotRequest ActiveWindow 2000 true false));
    (X11Env, Emitted ImageGrabFailed);
    (X11Env, CallDbusStartAgent) ].

(** The calls of a run. *)
Definition traceOf {A : Type} (r : option (A * SpectacleCore * Trace))
    : option Trace :=
  option_map snd r.

(** * Proofs *)

(** ** The constructor in closed form *)

Lemma construct_eq (e : Env) (em : ExportManager) (startMode : StartMode)
    (grabMode0 : GrabMode) (saveFileName : QString) (delayMsec : Z)
    (notifyOnGrab : bool) :
  construct e em startMode grabMode0 saveFileName delayMsec notifyOnGrab
  = Some (match storedName e saveFileName with
          | Some s => s | None => saveFileName end,
          constructed e em startMode grabMode0 saveFileName notifyOnGrab,
          startupTrace e startMode delayMsec).
Proof.
  unfold construct, constructed, startupTrace, storedName, chosenKind,
    constructorBody, selectImageGrabber, isPlatformX11, isPlatformWayland.
  destruct saveFileName as [|[|c s]]; cbn [isEmpty isNull orb negb];
    try destruct (isRelativePath e _);
    destruct (XCB_FOUND e), (platform e), startMode; reflexivity.
Qed.

(** ** Rules for [triple] and [keeps] *)

Section Rules.
  Context {A B : Type}.
  Variables (T : Effect -> Prop).

Lemma triple_ret (P : SpectacleCore -> Prop) (a : A) :
  triple P (ret a) T (fun _ => P).
Proof. intros st H. exists a, st, []. auto. Qed.

Lemma triple_bind (P : SpectacleCore -> Prop) (Q : A -> SpectacleCore -> Prop)
    (R : B -> SpectacleCore -> Prop) (m : M A) (f : A -> M B) :
  triple P m T Q ->
  (forall a, triple (Q a) (f a) T R) ->
  triple P (bind m f) T R.
Proof.
  intros Hm Hf st HP.
  destruct (Hm st HP) as (a & st1 & t1 & E1 & F1 & Q1).
  destruct (Hf a st1 Q1) as (b & st2 & t2 & E2 & F2 & R2).
  exists b, st2, (t1 ++ t2). unfold bind. rewrite E1, E2.
  split; [reflexivity|]. split; [apply Forall_app; auto | assumption].
Qed.

Lemma triple_weaken (P P' : SpectacleCore -> Prop)
    (Q Q' : A -> SpectacleCore -> Prop) (m : M A) :
  triple P m T Q ->
  (forall st, P' st -> P st) ->
  (forall a st, Q a st -> Q' a st) ->
  triple P' m T Q'.
Proof.
  intros Hm HP HQ st H.
  destruct (Hm st (HP st H)) as (a & st1 & t1 & E1 & F1 & Q1).
  exists a, st1, t1. auto.
Qed.
End Rules.

Section Loops.
  Variables (J : SpectacleCore -> Prop) (T : Effect -> Prop).

Lemma keeps_bind {A B : Type} (m : M A) (f : A -> M B) :
  keeps J T m -> (forall a, keeps J T (f a)) -> keeps J T (bind m f).
Proof. intros Hm Hf. eapply triple_bind; [exact Hm | exact Hf]. Qed.

Lemma keeps_ret {A : Type} (a : A) : keeps J T (ret a).
Proof. apply triple_ret. Qed.

Lemma keeps_get : keeps J T get.
Proof. intros st H. exists st, st, []. auto. Qed.

Lemma keeps_when (b : bool) (m : M unit) :
  keeps J T m -> keeps J T (when b m).
Proof. destruct b; [auto | intros _; apply keeps_ret]. Qed.

Lemma keeps_call (x : Effect) : T x -> keeps J T (call x).
Proof. intros Hx st H. exists tt, st, [x]. auto. Qed.

Lemma keeps_invokeEach {Ev : Type} (inv : Receiver -> Ev -> M unit) (ev : Ev) :
  (forall r, keeps J T (inv r ev)) ->
  forall cs, keeps J T (invokeEach inv cs ev).
Proof.
  intros H cs. induction cs as [|c cs IH]; cbn [invokeEach].
  - apply keeps_ret.
  - apply keeps_bind; [apply H | intros _; exact IH].
Qed.

Lemma keeps_emitExports (e : Env) :
  (forall r ev, keeps J T (invokeExport e r ev)) ->
  forall evs, keeps J T (emitExports e evs).
Proof.
  intros H evs. induction evs as [|ev evs IH]; cbn [emitExports].
  - apply keeps_ret.
  - apply keeps_bind; [|intros _; exact IH].
    unfold emitExport. apply keeps_bind; [apply keeps_get|].
    intros st. apply keeps_invokeEach. intros r. apply H.
Qed.

Lemma keeps_doStartDragAndDrop (e : Env) :
  (forall r ev, keeps J T (invokeExport e r ev)) ->
  T ExportTempSave -> (forall u p, T (DragExec u p)) ->
  keeps J T (doStartDragAndDrop e).
Proof.
  intros H Hs Hd. unfold doStartDragAndDrop.
  apply keeps_bind; [apply keeps_call; exact Hs|]. intros _.
  apply keeps_bind; [apply keeps_get|]. intros st. cbv zeta.
  apply keeps_bind; [apply keeps_emitExports; exact H|]. intros _.
  destruct (negb _); [apply keeps_ret|].
  apply keeps_bind; [apply keeps_get|]. intros st'.
  apply keeps_call. apply Hd.
Qed.

Lemma keeps_emit (e : Env) (ev : Emission) :
  (forall r, keeps J T (invoke e r ev)) -> keeps J T (emit e ev).
Proof.
  intros H. unfold emit. apply keeps_bind; [apply keeps_get|].
  intros st. apply keeps_invokeEach. exact H.
Qed.

Lemma keeps_run (ok : Event -> Prop) :
  (forall e x, ok x -> keeps J T (step e x)) ->
  forall xs, Forall (fun ex => ok (snd ex)) xs -> keeps J T (run xs).
Proof.
  intros H xs. induction xs as [|[e x] xs IH]; intros Hok; cbn [run].
  - apply keeps_ret.
  - inversion Hok; subst. apply keeps_bind; [apply H; assumption|].
    intros _. apply IH. assumption.
Qed.
End Loops.

(** ** Machine arithmetic *)

Lemma to_int_small (z : Z) : is_int z -> to_int z = z.
Proof.
  unfold is_int, INT_MIN, INT_MAX, to_int, wrap. intros H.
  change (2 ^ (32 - 1)) with 2147483648.
  change (2 ^ 32) with 4294967296.
  change (2 ^ 31) with 2147483648 in H.
  rewrite Z.mod_small; lia.
Qed.

Lemma to_qint64_small (z : Z) : is_qint64 z -> to_qint64 z = z.
Proof.
  unfold is_qint64, to_qint64, wrap. intros H.
  change (2 ^ (64 - 1)) with 9223372036854775808.
  change (2 ^ 64) with 18446744073709551616.
  change (2 ^ 63) with 9223372036854775808 in H.
  rewrite Z.mod_small; lia.
Qed.

Lemma is_int_is_qint64 (z : Z) : is_int z -> is_qint64 z.
Proof.
  unfold is_int, is_qint64, INT_MIN, INT_MAX.
  change (2 ^ 31) with 2147483648.
  change (2 ^ 63) with 9223372036854775808. lia.
Qed.

Lemma narrowed_sum_small (a b : Z) :
  is_int (a + b) -> to_int (qint64_add a b) = a + b.
Proof.
  intros H. unfold qint64_add.
  rewrite to_qint64_small by (apply is_int_is_qint64; exact H).
  apply to_int_small; exact H.
Qed.

Lemma compositorDelay_is_int (e : Env) : is_int (compositorDelay e + 0).
Proof.
  unfold compositorDelay, is_int, INT_MIN, INT_MAX.
  change (2 ^ 31) with 2147483648.
  destruct (compositingActive e); lia.
Qed.

(** ** Closed forms of the slots *)

Lemma takeNewScreenshot_eq (e : Env) (mode : GrabMode) (timeout : Z)
    (ip idec : bool) (st : SpectacleCore) :
  takeNewScreenshot e mode timeout ip idec st
  = match mImageGrabber st with
    | Some g =>
        Some (tt,
              set_mImageGrabber (Some (mkImageGrabber (kind g) mode ip idec)) st,
              [if timeout <? 0 then DoOnClickGrab
               else TimerSingleShot (int_add timeout (compositorDelay e))
                      doImageGrab])
    | None => None
    end.
Proof.
  destruct st as [em sm nf fs fu og ow gi cs nc]. destruct og; [|reflexivity].
  unfold takeNewScreenshot. destruct (timeout <? 0); reflexivity.
Qed.

Lemma showErrorMessage_eq (s : QString) (st : SpectacleCore) :
  showErrorMessage s st
  = Some (tt, st,
          DebugLine s ::
          (if StartMode_eqb (mStartMode st) GuiMode then [MessageBoxError s] else [])).
Proof.
  unfold showErrorMessage, bind, call, get, when.
  destruct (StartMode_eqb (mStartMode st) GuiMode); reflexivity.
Qed.

Lemma setFilename_eq (e : Env) (s : QString) (st : SpectacleCore) :
  setFilename e s st = Some (tt, set_mFileName s (fromUserInput e s) st, []).
Proof. reflexivity. Qed.

Lemma screenshotFailed_eq (st : SpectacleCore) :
  screenshotFailed st
  = match mStartMode st with
    | BackgroundMode =>
        Some (tt, st,
              [DebugLine (i18n "Screenshot capture canceled or failed");
               EmitGrabFailed; EmitAllDone])
    | DBusMode => Some (tt, st, [EmitGrabFailed; EmitAllDone])
    | GuiMode =>
        match mMainWindow st with
        | Some _ => Some (tt, st, [MainWindowShow])
        | None => None
        end
    end.
Proof.
  destruct st as [em sm nf fs fu og ow gi cs nc].
  destruct sm; try reflexivity. destruct ow; reflexivity.
Qed.

Lemma screenshotUpdated_eq (e : Env) (p : QPixmap) (st : SpectacleCore) :
  mStartMode st <> GuiMode ->
  screenshotUpdated e p st
  = match emitExports e (doSaveEmits e p (savePathOf st)) (beforeSave p st) with
    | Some (_, st2, t2) =>
        Some (tt, st2,
              ExportDoSave (savePathOf st) :: t2
              ++ (if mNotify st then [] else [EmitAllDone]))
    | None => None
    end.
Proof.
  intros Hm. destruct st as [em sm nf fs fu og ow gi cs nc]. cbn in Hm.
  unfold screenshotUpdated, savePathOf, beforeSave, exportDoSave, bind, connect,
    modify, get, call, when, ret, set_connections, set_mExportManager, setPixmap.
  destruct sm; [| |congruence]; destruct nf;
    cbn -[emitExports];
    match goal with |- context [emitExports ?a ?b ?c] =>
      destruct (emitExports a b c) as [[[[] st2] t2]|] end;
    cbn; rewrite ?app_nil_r; reflexivity.
Qed.

Lemma screenshotUpdated_gui_eq (e : Env) (p : QPixmap) (st : SpectacleCore) :
  mStartMode st = GuiMode ->
  screenshotUpdated e p st
  = match mMainWindow st with
    | Some _ =>
        Some (tt, set_mExportManager (setPixmap p (mExportManager st)) st,
              [MainWindowSetScreenshotAndShow p])
    | None => None
    end.
Proof.
  intros Hm. destruct st as [em sm nf fs fu og ow gi cs nc]. cbn in Hm.
  subst sm. destruct ow; reflexivity.
Qed.

Lemma doNotify_eq (e : Env) (u : QUrl) (st : SpectacleCore) :
  doNotify e u st
  = match mImageGrabber st with
    | Some g =>
        let id := notificationCount st in
        Some (tt,
              set_connections
                (connections st
                 ++ [mkConnection (TheNotification id) sig_action1Activated
                       (lambda_openSaved u);
                     mkConnection (TheNotification id) sig_destroyed signal_allDone])
                (set_notificationCount (S id) st),
              [NotificationSendEvent
                 (mkKNotification id (titleFor (mGrabMode g))
                    (if String.eqb (dirPath u) (picturesLocation e)
                     then i18n ("A screenshot was saved as '" ++ fileName u
                                ++ "' to your Pictures folder.")%string
                     else i18n ("A screenshot was saved as '" ++ fileName u
                                ++ "' to '" ++ dirPath u ++ "'.")%string)
                    [i18n "Open"] [u])])
    | None => None
    end.
Proof.
  destruct st as [em sm nf fs fu og ow gi cs nc].
  destruct og; [|reflexivity].
  unfold doNotify, bind, connect, modify, get, call, theImageGrabber. cbn.
  rewrite <- app_assoc. reflexivity.
Qed.

Lemma doCopyPath_eq (e : Env) (u : QUrl) (st : SpectacleCore) :
  doCopyPath e u st
  = Some (tt, st,
          if copySaveLocationToClipboard e
          then [ClipboardSetText (toLocalFile u)] else []).
Proof. unfold doCopyPath. destruct (copySaveLocationToClipboard e); reflexivity. Qed.

Lemma doStartDragAndDrop_eq (e : Env) (st : SpectacleCore) :
  doStartDragAndDrop e st
  = let saved := tempSave e (pixmap (mExportManager st)) in
    match emitExports e (snd saved) st with
    | Some (_, st2, t2) =>
        Some (tt, st2,
              ExportTempSave :: t2
              ++ (if isValid (fst saved)
                  then [DragExec (fst saved) (pixmap (mExportManager st2))]
                  else []))
    | None => None
    end.
Proof.
  unfold doStartDragAndDrop, bind, call, get, ret. cbv zeta.
  destruct (emitExports e (snd (tempSave e (pixmap (mExportManager st)))) st)
    as [[[[] st2] t2]|]; [|reflexivity].
  destruct (isValid (fst (tempSave e (pixmap (mExportManager st)))));
    cbn; rewrite ?app_nil_r; reflexivity.
Qed.

Lemma initGui_eq (e : Env) (st : SpectacleCore) :
  initGui e st
  = if isGuiInited st then Some (tt, st, [])
    else match mImageGrabber st with
         | Some g =>
             let onClick := onClickGrabSupported e (kind g) in
             Some (tt,
                   set_isGuiInited true
                     (set_connections (connections st ++ guiConnections)
                        (set_mMainWindow (Some (mkKSMainWindow onClick)) st)),
                   [NewMainWindow onClick; InvokeQueued doImageGrab])
         | None => None
         end.
Proof.
  destruct st as [em sm nf fs fu og ow gi cs nc].
  destruct gi; [reflexivity|]. destruct og; [|reflexivity].
  unfold initGui, bind, connect, modify, get, call, theImageGrabber. cbn.
  rewrite <- app_assoc. reflexivity.
Qed.

Lemma dbusStartAgent_eq (e : Env) (st : SpectacleCore) :
  dbusStartAgent e st
  = if StartMode_eqb (mStartMode st) GuiMode
    then Some (tt, st, [SetQuitOnLastWindowClosed true])
    else match initGui e (set_mStartMode GuiMode st) with
         | Some (_, st', tr) => Some (tt, st', SetQuitOnLastWindowClosed true :: tr)
         | None => None
         end.
Proof.
  unfold dbusStartAgent, bind, call, get, modify. cbn -[initGui].
  destruct (StartMode_eqb (mStartMode st) GuiMode); [reflexivity|]. cbn -[initGui].
  destruct (initGui e (set_mStartMode GuiMode st)) as [[[[] st'] tr]|]; reflexivity.
Qed.

Lemma setGrabMode_eq (m : GrabMode) (st : SpectacleCore) :
  setGrabMode m st
  = match mImageGrabber st with
    | Some g =>
        Some (tt,
              set_mImageGrabber
                (Some (mkImageGrabber (kind g) m (mCapturePointer g)
                         (mCaptureDecorations g))) st,
              [])
    | None => None
    end.
Proof.
  destruct st as [em sm nf fs fu og ow gi cs nc]. destruct og; reflexivity.
Qed.

(** ** Tactics *)

Ltac open_state st :=
  destruct st as [em sm nf fs fu og ow gi cs nc].

Ltac split_ifs :=
  repeat match goal with
         | |- context [if ?b then _ else _] => destruct b
         end.

Create Rewrite HintDb slots.
#[local] Hint Rewrite showErrorMessage_eq doCopyPath_eq doNotify_eq
  dbusStartAgent_eq initGui_eq setGrabMode_eq
  setFilename_eq takeNewScreenshot_eq screenshotFailed_eq : slots.

(** Solves [keeps J T (doStartDragAndDrop e)] from the lemma on
    [invokeExport] for [J] and [T]. *)
Ltac drag_keeps lem :=
  apply keeps_doStartDragAndDrop;
  [ intros; apply lem
  | first [reflexivity | exact I]
  | intros; first [reflexivity | exact I] ].

(** Solves [keeps J T slot] for a slot without a loop, where [J] unfolds
    to a conjunction of facts on the fields. *)
Ltac slot_keeps unfoldJ :=
  let st := fresh "st" in
  let HJ := fresh "HJ" in
  intros st HJ; autorewrite with slots;
  open_state st; unfoldJ; unfold Sound in *; cbn in HJ;
  decompose [and] HJ; clear HJ; subst;
  repeat match goal with
         | H : ?og <> None |- _ =>
             is_var og; destruct og; [clear H | exfalso; apply H; reflexivity]
         end;
  repeat match goal with
         | x : StartMode |- _ => destruct x
         | x : option KSMainWindow |- _ => destruct x
         end;
  try (exfalso; intuition congruence);
  cbn; split_ifs;
  (eexists _, _, _; split; [reflexivity|]; split;
   [repeat constructor | cbn; intuition (auto; congruence)]).

(** * The constructor and the timer *)

(** C5.  The constructor always returns, with a non-null image grabber
    chosen by platform: the X11 grabber on an X11 session when XCB support
    is compiled in, the KWin Wayland grabber on a Wayland session, and the
    dummy grabber in every other case. *)
Theorem constructor_selects_backend (e : Env) (em : ExportManager)
    (startMode : StartMode) (grabMode0 : GrabMode) (saveFileName : QString)
    (delayMsec : Z) (notifyOnGrab : bool) :
  exists name st tr g,
    construct e em startMode grabMode0 saveFileName delayMsec notifyOnGrab
      = Some (name, st, tr)
    /\ mImageGrabber st = Some g
    /\ kind g = match platform e with
                | PlatformX11 =>
                    if XCB_FOUND e then X11ImageGrabber else DummyImageGrabber
                | PlatformWayland => KWinWaylandImageGrabber
                | PlatformUnknown => DummyImageGrabber
                end.
Proof.
  rewrite construct_eq.
  eexists _, _, _, _. split; [reflexivity|]. split; [reflexivity|].
  cbn [kind]. unfold chosenKind, isPlatformX11, isPlatformWayland.
  destruct (XCB_FOUND e), (platform e); reflexivity.
Qed.

(** C2.  The constructor dispatches on the three start modes.  In
    [DBusMode] it makes no call at all; in [BackgroundMode] it differs from
    that only by one single-shot timer that runs [doImageGrab]; in
    [GuiMode] it is the [DBusMode] construction followed by [initGui],
    which creates the main window and queues one [doImageGrab]. *)
Theorem constructor_dispatches_on_start_mode (e : Env) (em : ExportManager)
    (grabMode0 : GrabMode) (saveFileName : QString) (delayMsec : Z)
    (notifyOnGrab : bool) :
  exists name st0,
    construct e em DBusMode grabMode0 saveFileName delayMsec notifyOnGrab
      = Some (name, st0, [])
    /\ mMainWindow st0 = None /\ isGuiInited st0 = false
    /\ (exists msec,
          construct e em BackgroundMode grabMode0 saveFileName delayMsec notifyOnGrab
          = Some (name, set_mStartMode BackgroundMode st0,
                  [TimerSingleShot msec doImageGrab]))
    /\ (exists st onClick,
          construct e em GuiMode grabMode0 saveFileName delayMsec notifyOnGrab
          = Some (name, st, [NewMainWindow onClick; InvokeQueued doImageGrab])
          /\ initGui e (set_mStartMode GuiMode st0)
             = Some (tt, st, [NewMainWindow onClick; InvokeQueued doImageGrab])
          /\ mMainWindow st = Some (mkKSMainWindow onClick)
          /\ isGuiInited st = true).
Proof.
  rewrite !construct_eq.
  eexists _, _. split; [reflexivity|].
  split; [reflexivity|]. split; [reflexivity|]. split.
  - eexists. reflexivity.
  - eexists _, _. split; [reflexivity|].
    split; [reflexivity|]. split; reflexivity.
Qed.

(** C8.  A negative timeout makes [takeNewScreenshot] grab on click: its
    only call is [doOnClickGrab], and no timer is set.  In the constructor
    a negative delay is replaced by 0 whenever the chosen back end does not
    support grabbing on click, so that the timer of [BackgroundMode] waits
    for the compositor delay alone. *)
Theorem negative_timeout_grabs_on_click (e : Env) :
  (forall (st : SpectacleCore) (mode : GrabMode) (timeout : Z) (ip idec : bool),
      mImageGrabber st <> None -> timeout < 0 ->
      exists st',
        takeNewScreenshot e mode timeout ip idec st = Some (tt, st', [DoOnClickGrab]))
  /\
  (forall (em : ExportManager) (grabMode0 : GrabMode) (saveFileName : QString)
          (delayMsec : Z) (notifyOnGrab : bool),
      delayMsec < 0 ->
      exists name st g msec,
        construct e em BackgroundMode grabMode0 saveFileName delayMsec notifyOnGrab
          = Some (name, st, [TimerSingleShot msec doImageGrab])
        /\ mImageGrabber st = Some g
        /\ (onClickGrabSupported e (kind g) = false ->
            effectiveDelay (onClickGrabSupported e (kind g)) delayMsec = 0
            /\ msec = compositorDelay e)).
Proof.
  split.
  - intros st mode timeout ip idec Hg Ht.
    rewrite takeNewScreenshot_eq.
    destruct (mImageGrabber st) as [g|] eqn:Eg; [|congruence].
    apply Z.ltb_lt in Ht. rewrite Ht. eexists. reflexivity.
  - intros em grabMode0 saveFileName delayMsec notifyOnGrab Hd.
    rewrite construct_eq.
    eexists _, _, _, _. split; [reflexivity|]. split; [reflexivity|].
    cbn [kind]. intros Hs. unfold effectiveDelay.
    rewrite Hs. apply Z.ltb_lt in Hd. rewrite Hd. cbn [negb andb].
    split; [reflexivity|].
    rewrite narrowed_sum_small by apply compositorDelay_is_int.
    apply Z.add_0_r.
Qed.

Lemma negative_timeout_witness :
  (exists st',
      takeNewScreenshot X11Env ActiveWindow (-1) true false guiCore
      = Some (tt, st', [DoOnClickGrab]))
  /\ (exists name st g msec,
        construct plainEnv noPixmap BackgroundMode FullScreen QNull (-1) false
          = Some (name, st, [TimerSingleShot msec doImageGrab])
        /\ mImageGrabber st = Some g
        /\ (onClickGrabSupported plainEnv (kind g) = false ->
            effectiveDelay (onClickGrabSupported plainEnv (kind g)) (-1) = 0
            /\ msec = compositorDelay plainEnv)).
Proof.
  split.
  - apply (proj1 (negative_timeout_grabs_on_click X11Env)).
    + discriminate.
    + reflexivity.
  - apply (proj2 (negative_timeout_grabs_on_click plainEnv)). reflexivity.
Defined.

(** C1, counterexample.  The timer takes an [int]: a [qint64] delay of
    2^32 ms leaves a timer of 50 ms.  And a delay of -1 ms on a back end
    without grabbing on click leaves 50 ms, not 49 ms. *)
Lemma timer_delay_counterexample :
  (is_qint64 4294967296
   /\ construct plainEnv noPixmap BackgroundMode FullScreen QNull 4294967296 false
      = Some (QNull,
              constructed plainEnv noPixmap BackgroundMode FullScreen QNull false,
              [TimerSingleShot 50 doImageGrab])
   /\ 50 <> 4294967296 + compositorDelay plainEnv)
  /\
  (construct plainEnv noPixmap BackgroundMode FullScreen QNull (-1) false
   = Some (QNull,
           constructed plainEnv noPixmap BackgroundMode FullScreen QNull false,
           [TimerSingleShot 50 doImageGrab])
   /\ 50 <> (-1) + compositorDelay plainEnv).
Proof.
  repeat split; try reflexivity; try discriminate.
  all: unfold is_qint64; change (2 ^ 63) with 9223372036854775808; lia.
Qed.

(** C1, amended.  The compositor delay is 200 ms when compositing is
    active and 50 ms otherwise.  [takeNewScreenshot] with a timeout that is
    not negative sets exactly one single-shot timer for [doImageGrab], and
    so does the [BackgroundMode] branch of the constructor; its delay is
    the timeout (in the constructor: the delay left by lines 82 to 84, which
    is [delayMsec] itself when that is not negative) plus the compositor
    delay, whenever that sum is an [int]. *)
Theorem timer_delay_is_timeout_plus_settle (e : Env) :
  compositorDelay e = (if compositingActive e then 200 else 50)
  /\
  (forall (st : SpectacleCore) (mode : GrabMode) (timeout : Z) (ip idec : bool),
      mImageGrabber st <> None ->
      0 <= timeout -> timeout + compositorDelay e <= INT_MAX ->
      exists st',
        takeNewScreenshot e mode timeout ip idec st
        = Some (tt, st', [TimerSingleShot (timeout + compositorDelay e) doImageGrab]))
  /\
  (forall (em : ExportManager) (grabMode0 : GrabMode) (saveFileName : QString)
          (delayMsec : Z) (notifyOnGrab : bool),
      exists name st tr g,
        construct e em BackgroundMode grabMode0 saveFileName delayMsec notifyOnGrab
          = Some (name, st, tr)
        /\ mImageGrabber st = Some g
        /\ (0 <= delayMsec ->
            effectiveDelay (onClickGrabSupported e (kind g)) delayMsec = delayMsec)
        /\ (is_int (effectiveDelay (onClickGrabSupported e (kind g)) delayMsec
                    + compositorDelay e) ->
            tr = [TimerSingleShot
                    (effectiveDelay (onClickGrabSupported e (kind g)) delayMsec
                     + compositorDelay e) doImageGrab])).
Proof.
  split; [reflexivity|]. split.
  - intros st mode timeout ip idec Hg H0 Hmax.
    rewrite takeNewScreenshot_eq.
    destruct (mImageGrabber st) as [g|] eqn:Eg; [|congruence].
    destruct (Z.ltb_spec timeout 0) as [Hneg|_]; [lia|].
    unfold int_add. rewrite to_int_small.
    + eexists. reflexivity.
    + unfold is_int, INT_MIN. split; [|exact Hmax].
      change (2 ^ 31) with 2147483648.
      unfold compositorDelay. destruct (compositingActive e); lia.
  - intros em grabMode0 saveFileName delayMsec notifyOnGrab.
    rewrite construct_eq. eexists _, _, _, _.
    split; [reflexivity|]. split; [reflexivity|]. cbn [kind].
    set (delay := effectiveDelay (onClickGrabSupported e (chosenKind e)) delayMsec).
    split.
    + intros H0. unfold delay, effectiveDelay.
      destruct (Z.ltb_spec delayMsec 0) as [Hneg|_]; [lia|].
      rewrite andb_false_r. reflexivity.
    + intros Hint. unfold startupTrace. fold delay.
      rewrite narrowed_sum_small, (Z.add_comm delay); [reflexivity|].
      rewrite Z.add_comm. exact Hint.
Qed.

Lemma timer_delay_witness :
  (exists st',
      takeNewScreenshot X11Env FullScreen 3000 true true guiCore
      = Some (tt, st',
              [TimerSingleShot (3000 + compositorDelay X11Env) doImageGrab]))
  /\ construct X11Env noPixmap BackgroundMode FullScreen QNull 5000 false
     = Some (QNull,
             constructed X11Env noPixmap BackgroundMode FullScreen QNull false,
             [TimerSingleShot 5200 doImageGrab])
  /\ construct plainEnv noPixmap BackgroundMode FullScreen QNull (- 2 ^ 40) false
     = Some (QNull,
             constructed plainEnv noPixmap BackgroundMode FullScreen QNull false,
             [TimerSingleShot 50 doImageGrab]).
Proof.
  destruct (timer_delay_is_timeout_plus_settle X11Env) as (_ & H2 & H3).
  destruct (timer_delay_is_timeout_plus_settle plainEnv) as (_ & _ & H3').
  split; [|split].
  - apply H2; [discriminate | lia | vm_compute; discriminate].
  - destruct (H3 noPixmap FullScreen QNull 5000 false)
      as (name & st & tr & g & E & Eg & _ & Ht).
    rewrite E. rewrite construct_eq in E. injection E as En Es _.
    subst st. cbn in Eg. injection Eg as Eg. subst g.
    rewrite Ht by (split; vm_compute; discriminate).
    rewrite <- En. reflexivity.
  - destruct (H3' noPixmap FullScreen QNull (- 2 ^ 40) false)
      as (name & st & tr & g & E & Eg & _ & Ht).
    rewrite E. rewrite construct_eq in E. injection E as En Es _.
    subst st. cbn in Eg. injection Eg as Eg. subst g.
    rewrite Ht by (split; vm_compute; discriminate).
    rewrite <- En. reflexivity.
Defined.

(** * No [allDone] before the notification is answered *)

Lemma notifying_invokeExport (b : bool) (e : Env) (r : Receiver)
    (ev : ExportEmission) :
  keeps (Notifying b) Quiet (invokeExport e r ev).
Proof.
  destruct r, ev; cbn [invokeExport]; try apply keeps_ret;
    slot_keeps ltac:(unfold Notifying in *).
Qed.

Lemma notifying_beforeSave (b : bool) (p : QPixmap) (st : SpectacleCore) :
  Notifying b st -> Notifying b (beforeSave p st).
Proof. intros H. exact H. Qed.





(** * Background mode: the invariant *)

Lemma background_invokeExport (e : Env) (r : Receiver) (ev : ExportEmission) :
  keeps Background Windowless (invokeExport e r ev).
Proof.
  destruct r, ev; cbn [invokeExport]; try apply keeps_ret;
    slot_keeps ltac:(unfold Background in *).
Qed.

Lemma background_beforeSave (p : QPixmap) (st : SpectacleCore) :
  Background st -> Background (beforeSave p st).
Proof. intros H. exact H. Qed.

Lemma background_screenshotUpdated (e : Env) (p : QPixmap) (st : SpectacleCore) :
  Background st ->
  exists st' nested,
    screenshotUpdated e p st
    = Some (tt, st',
            ExportDoSave (savePathOf st) :: nested
            ++ (if mNotify st then [] else [EmitAllDone]))
    /\ Forall Windowless nested /\ Background st'.
Proof.
  intros HJ.
  assert (Hm : mStartMode st <> GuiMode)
    by (destruct HJ as (_ & Hb & _); rewrite Hb; discriminate).
  rewrite (screenshotUpdated_eq e p st Hm).
  destruct (keeps_emitExports Background Windowless e
              (background_invokeExport e)
              (doSaveEmits e p (savePathOf st)) (beforeSave p st)
              (background_beforeSave p st HJ))
    as ([] & st2 & t2 & E2 & F2 & J2).
  rewrite E2. exists st2, t2. auto.
Qed.

Lemma background_step (e : Env) (x : Event) :
  isDbusStartAgent x = false -> keeps Background Windowless (step e x).
Proof.
  intros Hx. destruct x as [ev|name|m|]; cbn [step]; [| | |discriminate Hx].
  - apply keeps_emit. intros r.
    destruct r, ev; cbn [invoke]; try apply keeps_ret;
      try (drag_keeps background_invokeExport);
      try (slot_keeps ltac:(unfold Background in *)).
    intros st HJ.
    destruct (background_screenshotUpdated e p st HJ) as (st' & t & E & F & J).
    rewrite E. eexists _, _, _. split; [reflexivity|]. split; [|exact J].
    constructor; [reflexivity|]. apply Forall_app. split; [exact F|].
    destruct (mNotify st); repeat constructor.
  - slot_keeps ltac:(unfold Background in *).
  - slot_keeps ltac:(unfold Background in *).
Qed.

Lemma constructed_background (e : Env) (em : ExportManager) (grabMode0 : GrabMode)
    (saveFileName : QString) (notifyOnGrab : bool) :
  Background (constructed e em BackgroundMode grabMode0 saveFileName notifyOnGrab).
Proof.
  unfold Background, Sound, constructed. cbn.
  repeat split; try discriminate; congruence.
Qed.

Lemma constructed_sound (e : Env) (em : ExportManager) (startMode : StartMode)
    (grabMode0 : GrabMode) (saveFileName : QString) (notifyOnGrab : bool) :
  Sound (constructed e em startMode grabMode0 saveFileName notifyOnGrab).
Proof.
  unfold Sound, constructed. cbn.
  destruct startMode; cbn; repeat split; congruence.
Qed.



(** * The wiring and the stored pixmap: the invariant *)

Lemma Wired_app (st st' : SpectacleCore) (l : list Connection) :
  Wired st -> forallb addedLater l = true ->
  connections st' = connections st ++ l -> Wired st'.
Proof.
  intros (extra & E & F) Hl Hc. exists (extra ++ l). split.
  - rewrite Hc, E, app_assoc. reflexivity.
  - rewrite forallb_app, F, Hl. reflexivity.
Qed.

Lemma Wired_same (st st' : SpectacleCore) :
  Wired st -> connections st' = connections st -> Wired st'.
Proof. intros (extra & E & F) Hc. exists extra. rewrite Hc. auto. Qed.

Lemma addedLater_not_base (ev : Emission) (c : Connection) :
  addedLater c = true ->
  match ev with
  | ErrorMessage _ _ | PixmapChanged _ | ImageGrabFailed => listens ev c = false
  | _ => True
  end.
Proof.
  destruct c as [s sg r]. unfold addedLater, listens. cbn.
  destruct ev as [from ? | | | | | | | |]; try exact (fun _ => I);
    destruct s, sg, r; cbn; intros H; try discriminate H;
    rewrite ?andb_false_r; try reflexivity;
    destruct from; reflexivity.
Qed.

Lemma filter_none {A : Type} (f : A -> bool) (l : list A) :
  (forall x, In x l -> f x = false) -> filter f l = [].
Proof.
  induction l as [|a l IH]; intros H; [reflexivity|]. cbn.
  rewrite (H a (or_introl eq_refl)). apply IH. intros x Hx. apply H. right. exact Hx.
Qed.

(** In a wired object, the listeners of the grabber's signals and of
    [errorMessage] are those the constructor connected. *)
Lemma wired_listeners (st : SpectacleCore) (ev : Emission) :
  Wired st ->
  match ev with
  | ErrorMessage _ _ | PixmapChanged _ | ImageGrabFailed =>
      filter (listens ev) (connections st) = filter (listens ev) baseConnections
  | _ => True
  end.
Proof.
  intros (extra & E & F).
  assert (H : forall ev',
             match ev' with
             | ErrorMessage _ _ | PixmapChanged _ | ImageGrabFailed =>
                 filter (listens ev') extra = []
             | _ => True
             end).
  { intros ev'. rewrite forallb_forall in F.
    destruct ev'; try exact I; apply filter_none; intros c Hc.
    - apply (addedLater_not_base (ErrorMessage from errString) c (F c Hc)).
    - apply (addedLater_not_base (PixmapChanged p) c (F c Hc)).
    - apply (addedLater_not_base ImageGrabFailed c (F c Hc)). }
  destruct ev; try exact I; rewrite E, filter_app.
  - rewrite (H (ErrorMessage from errString)). apply app_nil_r.
  - rewrite (H (PixmapChanged p)). apply app_nil_r.
  - rewrite (H ImageGrabFailed). apply app_nil_r.
Qed.

Ltac wired :=
  first [ eapply Wired_same; [eassumption | reflexivity]
        | eapply Wired_app; [eassumption | | cbn; reflexivity]; reflexivity ].

Ltac slot_holding :=
  let st := fresh "st" in
  let HJ := fresh "HJ" in
  intros st HJ; autorewrite with slots;
  open_state st; unfold Holding, Sound in *; cbn in HJ;
  decompose [and] HJ; clear HJ; subst;
  repeat match goal with
         | H : ?og <> None |- _ =>
             is_var og; destruct og; [clear H | exfalso; apply H; reflexivity]
         end;
  repeat match goal with
         | x : StartMode |- _ => destruct x
         | x : option KSMainWindow |- _ => destruct x
         end;
  try (exfalso; intuition congruence);
  cbn; split_ifs;
  (eexists _, _, _; split; [reflexivity|]; split;
   [repeat constructor
   | cbn; repeat split; auto; try congruence; try wired]).

Lemma holding_invokeExport (p : QPixmap) (e : Env) (r : Receiver)
    (ev : ExportEmission) :
  keeps (Holding p) Any (invokeExport e r ev).
Proof.
  destruct r, ev; cbn [invokeExport]; try apply keeps_ret; slot_holding.
Qed.

Lemma holding_beforeSave (p0 p : QPixmap) (st : SpectacleCore) :
  Holding p0 st -> Holding p (beforeSave p st).
Proof.
  intros (Hs & Hw & _). split; [exact Hs|]. split; [|reflexivity].
  unfold beforeSave. destruct (mNotify st).
  - eapply Wired_app; [exact Hw | | reflexivity]. reflexivity.
  - eapply Wired_same; [exact Hw | reflexivity].
Qed.

(** Each capture completion replaces the stored pixmap. *)
Lemma holding_screenshotUpdated (p0 p : QPixmap) (e : Env) :
  triple (Holding p0) (screenshotUpdated e p) Any (fun _ => Holding p).
Proof.
  intros st HJ.
  destruct (StartMode_eqb (mStartMode st) GuiMode) eqn:Em.
  - assert (Hg : mStartMode st = GuiMode)
      by (destruct (mStartMode st); cbn in Em; congruence).
    rewrite (screenshotUpdated_gui_eq e p st Hg).
    destruct HJ as ((Hgr & Hw & Hi) & Hc & Hp).
    destruct (mMainWindow st) eqn:Ew; [|exfalso; apply (Hw Hg); reflexivity].
    eexists _, _, _. split; [reflexivity|]. split; [repeat constructor|].
    split; [|split; [eapply Wired_same; [exact Hc | reflexivity] | reflexivity]].
    revert Hgr Hw Hi Ew. open_state st. unfold Sound. cbn. intuition congruence.
  - assert (Hg : mStartMode st <> GuiMode)
      by (destruct (mStartMode st); cbn in Em; congruence).
    rewrite (screenshotUpdated_eq e p st Hg).
    destruct (keeps_emitExports (Holding p) Any e (holding_invokeExport p e)
                (doSaveEmits e p (savePathOf st)) (beforeSave p st)
                (holding_beforeSave p0 p st HJ))
      as ([] & st2 & t2 & E2 & F2 & J2).
    rewrite E2. eexists _, _, _. split; [reflexivity|]. split; [|exact J2].
    apply Forall_forall. intros x _. exact I.
Qed.

Lemma holding_step (p : QPixmap) (e : Env) (x : Event) :
  triple (Holding p) (step e x) Any (fun _ => Holding (lastPixmap [(e, x)] p)).
Proof.
  destruct x as [ev|name|m|]; cbn [step lastPixmap]; try slot_holding.
  destruct ev;
    try (apply keeps_emit; intros r; destruct r; cbn [invoke];
         try apply keeps_ret; try (drag_keeps holding_invokeExport);
         slot_holding).
  intros st HJ. unfold emit, bind, get.
  rewrite (wired_listeners st (PixmapChanged p0) (proj1 (proj2 HJ))).
  cbn [baseConnections filter listens sender signal emitter signalOf
       Sender_eqb SignalName_eqb andb invokeEach receiver invoke].
  destruct (holding_screenshotUpdated p p0 e st HJ) as ([] & st' & tr & E & F & J).
  unfold bind, ret. rewrite E.
  eexists _, _, _. split; [reflexivity|]. split; [|exact J].
  apply Forall_forall. intros x _. exact I.
Qed.

Lemma holding_run (xs : list (Env * Event)) (p : QPixmap) :
  triple (Holding p) (run xs) Any (fun _ => Holding (lastPixmap xs p)).
Proof.
  revert p. induction xs as [|[e x] xs IH]; intros p; cbn [run].
  - intros st H. exists tt, st, []. auto.
  - eapply triple_bind; [apply holding_step|].
    intros a. cbv beta.
    eapply triple_weaken;
      [apply (IH (lastPixmap [(e, x)] p)) | intros st H; exact H |].
    intros b st H. destruct x as [[]| | |]; exact H.
Qed.

Lemma constructed_holding (e : Env) (em : ExportManager) (startMode : StartMode)
    (grabMode0 : GrabMode) (saveFileName : QString) (notifyOnGrab : bool) :
  Holding (pixmap em)
    (constructed e em startMode grabMode0 saveFileName notifyOnGrab).
Proof.
  split; [apply constructed_sound|]. split; [|reflexivity].
  exists (if StartMode_eqb startMode GuiMode then guiConnections else []).
  split; [reflexivity|]. destruct startMode; reflexivity.
Qed.

(** Every run of events from a freshly constructed object returns, and
    ends in a sound, wired object that holds the last pixmap delivered. *)
Lemma reachable_holding (e : Env) (em : ExportManager) (startMode : StartMode)
    (grabMode0 : GrabMode) (saveFileName : QString) (delayMsec : Z)
    (notifyOnGrab : bool) (xs : list (Env * Event)) :
  exists name st tr st' tr',
    construct e em startMode grabMode0 saveFileName delayMsec notifyOnGrab
      = Some (name, st, tr)
    /\ run xs st = Some (tt, st', tr')
    /\ Holding (lastPixmap xs (pixmap em)) st'.
Proof.
  rewrite construct_eq.
  destruct (holding_run xs (pixmap em) _
              (constructed_holding e em startMode grabMode0 saveFileName notifyOnGrab))
    as ([] & st' & tr' & E & _ & J).
  eexists _, _, _, st', tr'. split; [reflexivity|]. split; assumption.
Qed.

(** * Background mode captures, saves and shows no window *)

(** C4.  Constructed in [BackgroundMode], the object has no main window
    and an uninitialised GUI, and the constructor's one call sets the timer
    that runs [doImageGrab].  Any run of events without [dbusStartAgent]
    returns, keeps it so, and makes no call that creates or shows a window
    or a message box.  From the state reached, a [pixmapChanged] signal of
    the grabber stores the pixmap and calls [doSave] of the export manager
    first, and again touches no window; so does [screenshotUpdated] called
    directly. *)
Theorem background_mode_shows_no_window (e : Env) (em : ExportManager)
    (grabMode0 : GrabMode) (saveFileName : QString) (delayMsec : Z)
    (notifyOnGrab : bool) (xs : list (Env * Event)) :
  Forall (fun ex => isDbusStartAgent (snd ex) = false) xs ->
  exists name st msec st' tr',
    construct e em BackgroundMode grabMode0 saveFileName delayMsec notifyOnGrab
      = Some (name, st, [TimerSingleShot msec doImageGrab])
    /\ mMainWindow st = None /\ isGuiInited st = false
    /\ run xs st = Some (tt, st', tr')
    /\ Forall Windowless ([TimerSingleShot msec doImageGrab] ++ tr')
    /\ mStartMode st' = BackgroundMode
    /\ mMainWindow st' = None /\ isGuiInited st' = false
    /\ (forall (e' : Env) (p : QPixmap),
          exists st'' nested,
            screenshotUpdated e' p st'
            = Some (tt, st'',
                    ExportDoSave (savePathOf st') :: nested
                    ++ (if mNotify st' then [] else [EmitAllDone]))
            /\ Forall Windowless nested
            /\ mMainWindow st'' = None /\ isGuiInited st'' = false)
    /\ (forall (e' : Env) (p : QPixmap),
          exists st'' nested,
            emit e' (PixmapChanged p) st'
            = Some (tt, st'',
                    ExportDoSave (savePathOf st') :: nested
                    ++ (if mNotify st' then [] else [EmitAllDone]))
            /\ Forall Windowless nested
            /\ pixmap (mExportManager st'') = p
            /\ mMainWindow st'' = None /\ isGuiInited st'' = false).
Proof.
  intros Hxs. rewrite construct_eq.
  destruct (keeps_run Background Windowless
              (fun x => isDbusStartAgent x = false) background_step xs Hxs _
              (constructed_background e em grabMode0 saveFileName notifyOnGrab))
    as ([] & st' & tr' & E & F & J).
  destruct (holding_run xs (pixmap em) _
              (constructed_holding e em BackgroundMode grabMode0 saveFileName
                 notifyOnGrab))
    as ([] & st2 & tr2 & E2 & _ & H2).
  rewrite E in E2. injection E2 as <- _.
  eexists _, _, _, st', tr'. split; [reflexivity|].
  split; [reflexivity|]. split; [reflexivity|]. split; [exact E|].
  split; [apply Forall_app; split; [repeat constructor | exact F]|].
  destruct J as (Hs & Hb & Hw & Hi). repeat (split; [assumption|]).
  assert (Hdirect : forall (e' : Env) (p : QPixmap),
             exists st'' nested,
               screenshotUpdated e' p st'
               = Some (tt, st'',
                       ExportDoSave (savePathOf st') :: nested
                       ++ (if mNotify st' then [] else [EmitAllDone]))
               /\ Forall Windowless nested
               /\ pixmap (mExportManager st'') = p
               /\ mMainWindow st'' = None /\ isGuiInited st'' = false).
  { intros e' p.
    destruct (background_screenshotUpdated e' p st'
                (conj Hs (conj Hb (conj Hw Hi))))
      as (st'' & nested & E' & F' & (_ & _ & Hw' & Hi')).
    destruct (holding_screenshotUpdated _ p e' st' H2)
      as ([] & st3 & tr3 & E3 & _ & (_ & _ & Hp)).
    rewrite E' in E3. injection E3 as <- _.
    exists st'', nested. auto. }
  split.
  - intros e' p. destruct (Hdirect e' p) as (st'' & nested & E' & F' & _ & W').
    exists st'', nested. auto.
  - intros e' p. destruct (Hdirect e' p) as (st'' & nested & E' & R').
    exists st'', nested. split; [|exact R'].
    unfold emit, bind, get.
    rewrite (wired_listeners st' (PixmapChanged p) (proj1 (proj2 H2))).
    cbn [baseConnections filter listens sender signal emitter signalOf
         Sender_eqb SignalName_eqb andb invokeEach receiver invoke].
    unfold bind, ret. rewrite E', app_nil_r. reflexivity.
Qed.

Lemma background_witness :
  exists st' tr' st'' nested,
    construct X11Env noPixmap BackgroundMode FullScreen (QStr "shot.png") 0 true
      = Some (QStr "/home/user/shot.png", backgroundCore,
              [TimerSingleShot 200 doImageGrab])
    /\ run captureThenSaved backgroundCore = Some (tt, st', tr')
    /\ Forall Windowless tr'
    /\ emit X11Env (PixmapChanged (Pixmap 7)) st'
       = Some (tt, st'',
               ExportDoSave (savePathOf st') :: nested
               ++ (if mNotify st' then [] else [EmitAllDone]))
    /\ pixmap (mExportManager st'') = Pixmap 7.
Proof.
  destruct (background_mode_shows_no_window X11Env noPixmap FullScreen
              (QStr "shot.png") 0 true captureThenSaved)
    as (name & st & msec & st' & tr' & E & _ & _ & R & F & _ & _ & _ & _ & He).
  { repeat constructor. }
  destruct (He X11Env (Pixmap 7)) as (st'' & nested & E' & _ & Hp & _).
  rewrite construct_eq in E. injection E as _ <- _.
  apply Forall_app in F. destruct F as [_ F].
  exists st', tr', st'', nested. split; [reflexivity|].
  split; [exact R|]. split; [exact F|]. split; [exact E' | exact Hp].
Defined.

(** * What is stored, and where errors go *)



(** C3, counterexample.  In [GuiMode] an error message reaches both the
    debug log and a message box, and a failed capture reaches neither (the
    main window is shown again). *)
Lemma error_routing_counterexample :
  emit X11Env (ErrorMessage TheExportManager (QStr "Cannot save")) guiCore
  = Some (tt, guiCore,
          [DebugLine (QStr "Cannot save"); MessageBoxError (QStr "Cannot save")])
  /\ emit X11Env ImageGrabFailed guiCore = Some (tt, guiCore, [MainWindowShow]).
Proof. split; reflexivity. Qed.

(** C3, amended.  In every state the object can reach, an [errorMessage]
    signal (of the export manager, for a failed save, or of the object
    itself) is always written to the debug log, and is shown in a message
    box as well exactly when the start mode is [GuiMode].  A failed capture
    writes a debug line in [BackgroundMode] only; there and in [DBusMode]
    it emits [grabFailed] and [allDone], and in [GuiMode] it shows the main
    window. *)
Theorem errors_are_logged_and_boxed_in_gui (e0 : Env) (em : ExportManager)
    (startMode : StartMode) (grabMode0 : GrabMode) (saveFileName : QString)
    (delayMsec : Z) (notifyOnGrab : bool) (xs : list (Env * Event)) :
  exists name st tr st' tr',
    construct e0 em startMode grabMode0 saveFileName delayMsec notifyOnGrab
      = Some (name, st, tr)
    /\ run xs st = Some (tt, st', tr')
    /\ forall (e : Env) (s : QString),
         let sinks :=
           DebugLine s ::
           (if StartMode_eqb (mStartMode st') GuiMode
            then [MessageBoxError s] else []) in
         emit e (ErrorMessage TheExportManager s) st' = Some (tt, st', sinks)
         /\ emit e (ErrorMessage TheCore s) st' = Some (tt, st', sinks)
         /\ emit e ImageGrabFailed st'
            = Some (tt, st',
                    match mStartMode st' with
                    | BackgroundMode =>
                        [DebugLine (i18n "Screenshot capture canceled or failed");
                         EmitGrabFailed; EmitAllDone]
                    | DBusMode => [EmitGrabFailed; EmitAllDone]
                    | GuiMode => [MainWindowShow]
                    end).
Proof.
  destruct (reachable_holding e0 em startMode grabMode0 saveFileName delayMsec
              notifyOnGrab xs)
    as (name & st & tr & st' & tr' & E & R & ((Hg & Hw & Hi) & Hc & _)).
  exists name, st, tr, st', tr'. split; [exact E|]. split; [exact R|].
  intros e s sinks. unfold emit, bind, get.
  rewrite (wired_listeners st' (ErrorMessage TheExportManager s) Hc).
  rewrite (wired_listeners st' (ErrorMessage TheCore s) Hc).
  rewrite (wired_listeners st' ImageGrabFailed Hc).
  cbn [baseConnections filter listens sender signal emitter signalOf
       Sender_eqb SignalName_eqb andb invokeEach receiver invoke].
  unfold bind, ret. rewrite showErrorMessage_eq, screenshotFailed_eq.
  fold sinks. rewrite app_nil_r. split; [reflexivity|]. split; [reflexivity|].
  destruct (mStartMode st') eqn:Em; try reflexivity.
  destruct (mMainWindow st') eqn:Ew; [reflexivity|].
  exfalso. apply Hw; reflexivity.
Qed.

(** * The stored file name *)

(** C9, counterexample.  [setFilename] stores any name, so a relative,
    non-empty name can be stored after construction. *)
Lemma stored_filename_counterexample :
  exists st,
    setFilename X11Env (QStr "shot.png") guiCore = Some (tt, st, [])
    /\ filename st = QStr "shot.png"
    /\ isEmpty (filename st) = false
    /\ isRelativePath X11Env (filename st) = true.
Proof. eexists. repeat split. Qed.

(** C9, amended.  After [setFilename(s)], [filename()] returns [s] and the
    stored URL is [QUrl::fromUserInput(s)].  The constructor stores a
    non-empty relative [saveFileName] as
    [QDir::current().absoluteFilePath(saveFileName)] (and writes that back
    to its argument), a non-empty absolute one as it is, and an empty one
    not at all; so, given that [absoluteFilePath] returns absolute paths,
    the file name stored when the constructor returns is absolute or
    empty. *)
Theorem filename_is_stored (e : Env) :
  (forall (s : QString) (st : SpectacleCore),
      exists st',
        setFilename e s st = Some (tt, st', [])
        /\ filename st' = s /\ mFileNameUrl st' = fromUserInput e s)
  /\
  (forall (em : ExportManager) (startMode : StartMode) (grabMode0 : GrabMode)
          (saveFileName : QString) (delayMsec : Z) (notifyOnGrab : bool),
      exists name st tr,
        construct e em startMode grabMode0 saveFileName delayMsec notifyOnGrab
          = Some (name, st, tr)
        /\ (isEmpty saveFileName = true ->
            name = saveFileName /\ filename st = QNull /\ mFileNameUrl st = QUrl_null)
        /\ (isEmpty saveFileName = false ->
            isRelativePath e saveFileName = false ->
            name = saveFileName /\ filename st = saveFileName
            /\ mFileNameUrl st = fromUserInput e saveFileName)
        /\ (isEmpty saveFileName = false ->
            isRelativePath e saveFileName = true ->
            name = absoluteFilePath e saveFileName
            /\ filename st = absoluteFilePath e saveFileName
            /\ mFileNameUrl st = fromUserInput e (absoluteFilePath e saveFileName))
        /\ ((forall s, isRelativePath e (absoluteFilePath e s) = false) ->
            isEmpty (filename st) = true
            \/ isRelativePath e (filename st) = false)).
Proof.
  split.
  - intros s st. rewrite setFilename_eq. eexists. repeat split.
  - intros em startMode grabMode0 saveFileName delayMsec notifyOnGrab.
    rewrite construct_eq. eexists _, _, _. split; [reflexivity|].
    unfold filename, constructed, storedName. cbn [mFileNameString mFileNameUrl].
    destruct (isEmpty saveFileName) eqn:Ee;
      destruct (isRelativePath e saveFileName) eqn:Er;
      repeat split; try discriminate; auto.
Qed.

Lemma unixAbsoluteFilePath_absolute (s : QString) :
  negb (startsWithSlash (unixAbsoluteFilePath s)) = false.
Proof.
  destruct s as [|n]; [reflexivity|]. unfold unixAbsoluteFilePath.
  destruct (startsWithSlash (QStr n)) eqn:E; [rewrite E|]; reflexivity.
Qed.

Lemma filename_witness :
  (exists st',
      setFilename X11Env (QStr "/tmp/a.png") guiCore = Some (tt, st', [])
      /\ filename st' = QStr "/tmp/a.png"
      /\ mFileNameUrl st' = fromUserInput X11Env (QStr "/tmp/a.png"))
  /\ (exists st tr,
        construct X11Env noPixmap BackgroundMode FullScreen (QStr "shot.png") 0 true
          = Some (QStr "/home/user/shot.png", st, tr)
        /\ filename st = QStr "/home/user/shot.png"
        /\ (isEmpty (filename st) = true
            \/ isRelativePath X11Env (filename st) = false)).
Proof.
  destruct (filename_is_stored X11Env) as [H1 H2]. split.
  - apply H1.
  - destruct (H2 noPixmap BackgroundMode FullScreen (QStr "shot.png") 0 true)
      as (name & st & tr & E & _ & _ & Hrel & Habs).
    destruct (Hrel eq_refl eq_refl) as (Hn & Hf & _).
    exists st, tr. rewrite <- Hn at 1. split; [exact E|]. split; [exact Hf|].
    apply Habs. exact unixAbsoluteFilePath_absolute.
Defined.

(** * Sample runs *)

Example background_startup :
  traceOf (construct X11Env noPixmap BackgroundMode FullScreen QNull 1000 false)
  = Some [TimerSingleShot 1200 doImageGrab].
Proof. reflexivity. Qed.

Example gui_startup :
  traceOf (construct X11Env noPixmap GuiMode FullScreen QNull 1000 false)
  = Some [NewMainWindow true; InvokeQueued doImageGrab].
Proof. reflexivity. Qed.

Example wayland_backend :
  option_map (fun r => option_map kind (mImageGrabber (snd (fst r))))
    (construct (unixEnv true PlatformWayland true) noPixmap DBusMode FullScreen
       QNull 0 false)
  = Some (Some KWinWaylandImageGrabber).
Proof. reflexivity. Qed.

Example failed_capture_in_background :
  traceOf (run [(X11Env, Emitted ImageGrabFailed)] backgroundCore)
  = Some [DebugLine (QStr "Screenshot capture canceled or failed");
          EmitGrabFailed; EmitAllDone].
Proof. reflexivity. Qed.

Example no_allDone_while_notification_is_open :
  option_map (filter signalsDone) (traceOf (run captureThenSaved backgroundCore))
  = Some [].
Proof. reflexivity. Qed.

Example allDone_when_notification_is_closed :
  option_map (filter signalsDone)
    (traceOf (run (captureThenSaved ++ [(X11Env, Emitted (Destroyed 0))])
                backgroundCore))
  = Some [EmitAllDone].
Proof. reflexivity. Qed.

Example allDone_timer_when_open_is_pressed :
  option_map (filter signalsDone)
    (traceOf (run (captureThenSaved ++ [(X11Env, Emitted (Action1Activated 0))])
                backgroundCore))
  = Some [TimerSingleShot 250 allDone].
Proof. reflexivity. Qed.

Example on_click_grab_from_the_window :
  traceOf (run [(X11Env, Emitted (NewScreenshotRequest ActiveWindow (-1) true true))]
             guiCore)
  = Some [DoOnClickGrab].
Proof. reflexivity. Qed.

(** * What a run keeps of the object *)

Lemma Forall_Any (tr : Trace) : Forall Any tr.
Proof. apply Forall_forall. intros x _. exact I. Qed.

Ltac slot_tracked :=
  let st := fresh "st" in
  let HJ := fresh "HJ" in
  intros st HJ; autorewrite with slots;
  open_state st; unfold Tracked in *; cbn in HJ;
  decompose [and ex] HJ; clear HJ; subst;
  repeat match goal with
         | pr : Profile |- _ => destruct pr
         end;
  cbn in *; subst;
  repeat match goal with
         | x : StartMode |- _ => destruct x
         | x : option KSMainWindow |- _ => destruct x
         end;
  cbn in *; try discriminate;
  split_ifs;
  (eexists _, _, _; split; [reflexivity|]; split;
   [apply Forall_Any | cbn; repeat split; eauto]).

Lemma tracked_invokeExport (pr : Profile) (e : Env) (r : Receiver)
    (ev : ExportEmission) :
  keeps (Tracked pr) Any (invokeExport e r ev).
Proof.
  destruct r, ev; cbn [invokeExport]; try apply keeps_ret; slot_tracked.
Qed.

Lemma tracked_beforeSave (pr : Profile) (p : QPixmap) (st : SpectacleCore) :
  Tracked pr st -> Tracked pr (beforeSave p st).
Proof. intros H. exact H. Qed.

Lemma tracked_sound (pr : Profile) (st : SpectacleCore) :
  Tracked pr st -> Sound st.
Proof.
  intros ((g & Hg & _) & _ & Hm & _ & _ & Hi & Hw). unfold Sound.
  rewrite Hg, Hm, Hi. destruct (mMainWindow st), (pMode pr); cbn in *;
    repeat split; congruence.
Qed.

Lemma tracked_screenshotUpdated (pr : Profile) (e : Env) (p : QPixmap) :
  keeps (Tracked pr) Any (screenshotUpdated e p).
Proof.
  intros st HJ.
  destruct (StartMode_eqb (mStartMode st) GuiMode) eqn:Em.
  - assert (Hg : mStartMode st = GuiMode)
      by (destruct (mStartMode st); cbn in Em; congruence).
    rewrite (screenshotUpdated_gui_eq e p st Hg).
    destruct (tracked_sound pr st HJ) as (_ & Hw & _).
    destruct (mMainWindow st) eqn:Ew; [|exfalso; apply (Hw Hg); reflexivity].
    eexists _, _, _. split; [reflexivity|]. split; [apply Forall_Any|].
    exact HJ.
  - assert (Hg : mStartMode st <> GuiMode)
      by (destruct (mStartMode st); cbn in Em; congruence).
    rewrite (screenshotUpdated_eq e p st Hg).
    destruct (keeps_emitExports (Tracked pr) Any e (tracked_invokeExport pr e)
                (doSaveEmits e p (savePathOf st)) (beforeSave p st)
                (tracked_beforeSave pr p st HJ))
      as ([] & st2 & t2 & E2 & F2 & J2).
    rewrite E2. eexists _, _, _. split; [reflexivity|]. split; [|exact J2].
    apply Forall_Any.
Qed.

Lemma tracked_step (pr : Profile) (e : Env) (x : Event) :
  triple (Tracked pr) (step e x) Any (fun _ => Tracked (profileStep e x pr)).
Proof.
  destruct x as [ev|name|m|]; cbn [step profileStep]; try slot_tracked.
  apply keeps_emit. intros r.
  destruct r, ev; cbn [invoke]; try apply keeps_ret;
    try apply tracked_screenshotUpdated;
    try (drag_keeps tracked_invokeExport); slot_tracked.
Qed.

Lemma tracked_run (xs : list (Env * Event)) (pr : Profile) :
  triple (Tracked pr) (run xs) Any (fun _ => Tracked (profileAfter xs pr)).
Proof.
  revert pr. induction xs as [|[e x] xs IH]; intros pr; cbn [run profileAfter].
  - intros st H. exists tt, st, []. auto.
  - eapply triple_bind; [apply tracked_step|].
    intros a. cbv beta. apply IH.
Qed.

Lemma constructed_tracked (e : Env) (em : ExportManager) (startMode : StartMode)
    (grabMode0 : GrabMode) (saveFileName : QString) (notifyOnGrab : bool) :
  Tracked
    (profileOf (chosenKind e)
       (constructed e em startMode grabMode0 saveFileName notifyOnGrab))
    (constructed e em startMode grabMode0 saveFileName notifyOnGrab).
Proof.
  unfold Tracked, profileOf, constructed. cbn.
  destruct startMode; cbn; repeat split; eauto.
Qed.

Lemma profileAfter_fixed (xs : list (Env * Event)) (pr : Profile) :
  pKind (profileAfter xs pr) = pKind pr
  /\ pNotify (profileAfter xs pr) = pNotify pr.
Proof.
  revert pr. induction xs as [|[e x] xs IH]; intros pr; cbn [profileAfter].
  - split; reflexivity.
  - destruct (IH (profileStep e x pr)) as [-> ->].
    destruct x; split; reflexivity.
Qed.

Lemma profileAfter_mode (xs : list (Env * Event)) (pr : Profile) :
  pMode (profileAfter xs pr)
  = if existsb (fun ex => isDbusStartAgent (snd ex)) xs then GuiMode else pMode pr.
Proof.
  revert pr. induction xs as [|[e x] xs IH]; intros pr; cbn [profileAfter existsb].
  - reflexivity.
  - rewrite IH. destruct x; cbn; try reflexivity.
    destruct (existsb _ xs); reflexivity.
Qed.

Lemma profileAfter_signals (xs : list (Env * Event)) (pr : Profile) :
  Forall (fun ex => isEmitted (snd ex) = true) xs -> profileAfter xs pr = pr.
Proof.
  induction 1 as [|[e x] xs Hx _ IH]; cbn [profileAfter]; [reflexivity|].
  destruct x; cbn in Hx; try discriminate. exact IH.
Qed.

(** Every run from a freshly constructed object returns, in a state that
    agrees with the profile the events lead to. *)
Lemma reachable_tracked (e : Env) (em : ExportManager) (startMode : StartMode)
    (grabMode0 : GrabMode) (saveFileName : QString) (delayMsec : Z)
    (notifyOnGrab : bool) (xs : list (Env * Event)) :
  exists name st tr st' tr',
    construct e em startMode grabMode0 saveFileName delayMsec notifyOnGrab
      = Some (name, st, tr)
    /\ run xs st = Some (tt, st', tr')
    /\ Tracked (profileOf (chosenKind e) st) st
    /\ Tracked (profileAfter xs (profileOf (chosenKind e) st)) st'.
Proof.
  rewrite construct_eq.
  destruct (tracked_run xs _ _
              (constructed_tracked e em startMode grabMode0 saveFileName notifyOnGrab))
    as ([] & st' & tr' & E & _ & J).
  eexists _, _, _, st', tr'. split; [reflexivity|]. split; [exact E|].
  split; [apply constructed_tracked | exact J].
Qed.

(** X1.  No run of events makes a constructed object dereference a null
    pointer: every run returns, the image grabber is still there, and the
    GUI is initialised, and the main window exists, exactly when the start
    mode is [GuiMode]. *)
Theorem run_returns_and_gui_follows_mode (e : Env) (em : ExportManager)
    (startMode : StartMode) (grabMode0 : GrabMode) (saveFileName : QString)
    (delayMsec : Z) (notifyOnGrab : bool) (xs : list (Env * Event)) :
  exists name st tr st' tr',
    construct e em startMode grabMode0 saveFileName delayMsec notifyOnGrab
      = Some (name, st, tr)
    /\ run xs st = Some (tt, st', tr')
    /\ mImageGrabber st' <> None
    /\ (isGuiInited st' = true <-> mStartMode st' = GuiMode)
    /\ (mMainWindow st' <> None <-> mStartMode st' = GuiMode).
Proof.
  destruct (reachable_tracked e em startMode grabMode0 saveFileName delayMsec
              notifyOnGrab xs)
    as (name & st & tr & st' & tr' & E & R & _ & J).
  exists name, st, tr, st', tr'. split; [exact E|]. split; [exact R|].
  destruct J as ((g & Hg & _) & _ & Hm & _ & _ & Hi & Hw).
  rewrite Hg, Hi, Hm. split; [discriminate|].
  destruct (mMainWindow st'), (pMode _); cbn in *;
    repeat split; intros; congruence.
Qed.

(** X2.  Over any run, the back end chosen by the constructor and the
    notify flag never change; the start mode changes only by
    [dbusStartAgent], and only to [GuiMode]; and when the run consists of
    signals only, the file name and its URL are those the constructor
    left. *)
Theorem run_keeps_backend_flag_and_mode (e : Env) (em : ExportManager)
    (startMode : StartMode) (grabMode0 : GrabMode) (saveFileName : QString)
    (delayMsec : Z) (notifyOnGrab : bool) (xs : list (Env * Event)) :
  exists name st tr st' tr' g g',
    construct e em startMode grabMode0 saveFileName delayMsec notifyOnGrab
      = Some (name, st, tr)
    /\ run xs st = Some (tt, st', tr')
    /\ mImageGrabber st = Some g /\ mImageGrabber st' = Some g'
    /\ kind g' = kind g
    /\ mNotify st' = notifyOnGrab
    /\ mStartMode st'
       = (if existsb (fun ex => isDbusStartAgent (snd ex)) xs
          then GuiMode else startMode)
    /\ (Forall (fun ex => isEmitted (snd ex) = true) xs ->
        filename st' = filename st /\ mFileNameUrl st' = mFileNameUrl st).
Proof.
  destruct (reachable_tracked e em startMode grabMode0 saveFileName delayMsec
              notifyOnGrab xs)
    as (name & st & tr & st' & tr' & E & R & J0 & J).
  destruct J0 as ((g & Hg & Hk) & _).
  destruct J as ((g' & Hg' & Hk') & Hn & Hm & Hf & Hu & _).
  exists name, st, tr, st', tr', g, g'.
  split; [exact E|]. split; [exact R|]. split; [exact Hg|]. split; [exact Hg'|].
  destruct (profileAfter_fixed xs (profileOf (chosenKind e) st)) as [Ek En].
  rewrite construct_eq in E. injection E as _ <- _.
  split; [rewrite Hk', Ek, Hk; reflexivity|].
  split; [rewrite Hn, En; reflexivity|].
  split; [rewrite Hm, profileAfter_mode; reflexivity|].
  intros Hsig. rewrite (profileAfter_signals xs _ Hsig) in Hf, Hu.
  unfold filename. split; assumption.
Qed.

Lemma run_keeps_witness :
  exists name st tr st' tr',
    construct X11Env noPixmap BackgroundMode FullScreen (QStr "shot.png") 0 true
      = Some (name, st, tr)
    /\ run captureThenSaved st = Some (tt, st', tr')
    /\ mStartMode st' = BackgroundMode
    /\ filename st' = filename st /\ mFileNameUrl st' = mFileNameUrl st.
Proof.
  destruct (run_keeps_backend_flag_and_mode X11Env noPixmap BackgroundMode
              FullScreen (QStr "shot.png") 0 true captureThenSaved)
    as (name & st & tr & st' & tr' & g & g' & E & R & _ & _ & _ & _ & Hm & Hs).
  exists name, st, tr, st', tr'. split; [exact E|]. split; [exact R|].
  split; [exact Hm|]. apply Hs. repeat constructor.
Defined.

(** * The main window is created once *)

Section Accounting.
  Variables (J : SpectacleCore -> Prop) (f : SpectacleCore -> nat)
            (w : Trace -> nat).
  Hypothesis w_nil : w [] = 0%nat.
  Hypothesis w_app : forall a b, w (a ++ b) = (w a + w b)%nat.

Lemma accounts_ret {A : Type} (a : A) : accounts J f w (ret a).
Proof. intros st H. exists a, st, []. rewrite w_nil. auto. Qed.

Lemma accounts_bind {A B : Type} (m : M A) (k : A -> M B) :
  accounts J f w m -> (forall a, accounts J f w (k a)) ->
  accounts J f w (bind m k).
Proof.
  intros Hm Hk st HJ.
  destruct (Hm st HJ) as (a & st1 & t1 & E1 & J1 & W1).
  destruct (Hk a st1 J1) as (b & st2 & t2 & E2 & J2 & W2).
  exists b, st2, (t1 ++ t2). unfold bind. rewrite E1, E2.
  split; [reflexivity|]. split; [exact J2|]. rewrite w_app. lia.
Qed.

Lemma accounts_get : accounts J f w get.
Proof. intros st H. exists st, st, []. rewrite w_nil. auto. Qed.

Lemma accounts_invokeEach {Ev : Type} (inv : Receiver -> Ev -> M unit) (ev : Ev) :
  (forall r, accounts J f w (inv r ev)) ->
  forall cs, accounts J f w (invokeEach inv cs ev).
Proof.
  intros H cs. induction cs as [|c cs IH]; cbn [invokeEach].
  - apply accounts_ret.
  - apply accounts_bind; [apply H | intros _; exact IH].
Qed.

Lemma accounts_emitExports (e : Env) :
  (forall r ev, accounts J f w (invokeExport e r ev)) ->
  forall evs, accounts J f w (emitExports e evs).
Proof.
  intros H evs. induction evs as [|ev evs IH]; cbn [emitExports].
  - apply accounts_ret.
  - apply accounts_bind; [|intros _; exact IH].
    unfold emitExport. apply accounts_bind; [apply accounts_get|].
    intros st. apply accounts_invokeEach. intros r. apply H.
Qed.

Lemma accounts_call (x : Effect) : w [x] = 0%nat -> accounts J f w (call x).
Proof. intros Hx st H. exists tt, st, [x]. rewrite Hx. auto. Qed.

Lemma accounts_doStartDragAndDrop (e : Env) :
  (forall r ev, accounts J f w (invokeExport e r ev)) ->
  w [ExportTempSave] = 0%nat -> (forall u p, w [DragExec u p] = 0%nat) ->
  accounts J f w (doStartDragAndDrop e).
Proof.
  intros H Hs Hd. unfold doStartDragAndDrop.
  apply accounts_bind; [apply accounts_call; exact Hs|]. intros _.
  apply accounts_bind; [apply accounts_get|]. intros st. cbv zeta.
  apply accounts_bind; [apply accounts_emitExports; exact H|]. intros _.
  destruct (negb _); [apply accounts_ret|].
  apply accounts_bind; [apply accounts_get|]. intros st'.
  apply accounts_call. apply Hd.
Qed.

Lemma accounts_emit (e : Env) (ev : Emission) :
  (forall r, accounts J f w (invoke e r ev)) -> accounts J f w (emit e ev).
Proof.
  intros H. unfold emit. apply accounts_bind; [apply accounts_get|].
  intros st. apply accounts_invokeEach. exact H.
Qed.

Lemma accounts_run :
  (forall e x, accounts J f w (step e x)) ->
  forall xs, accounts J f w (run xs).
Proof.
  intros H xs. induction xs as [|[e x] xs IH]; cbn [run].
  - apply accounts_ret.
  - apply accounts_bind; [apply H | intros _; exact IH].
Qed.
End Accounting.

Lemma windowsCreated_app (a b : Trace) :
  windowsCreated (a ++ b) = (windowsCreated a + windowsCreated b)%nat.
Proof. unfold windowsCreated. rewrite filter_app, length_app. reflexivity. Qed.

Ltac slot_accounts :=
  let st := fresh "st" in
  let HJ := fresh "HJ" in
  intros st HJ; autorewrite with slots;
  open_state st; unfold Inited in *; cbn in HJ;
  decompose [and] HJ; clear HJ; subst;
  repeat match goal with
         | H : ?og <> None |- _ =>
             is_var og; destruct og; [clear H | exfalso; apply H; reflexivity]
         | x : StartMode |- _ => destruct x
         | x : option KSMainWindow |- _ => destruct x
         end;
  cbn in *; try discriminate;
  split_ifs;
  (eexists _, _, _; split; [reflexivity|]; split;
   [cbn; repeat split; congruence | reflexivity]).

Lemma inited_invokeExport (e : Env) (r : Receiver) (ev : ExportEmission) :
  accounts Inited guiCount windowsCreated (invokeExport e r ev).
Proof.
  destruct r, ev; cbn [invokeExport];
    try (apply accounts_ret; reflexivity); slot_accounts.
Qed.

Lemma inited_sound (st : SpectacleCore) : Inited st -> Sound st.
Proof.
  intros (Hg & Hw & Hi). unfold Sound. rewrite Hi.
  rewrite Hi in Hw.
  destruct (mMainWindow st), (mStartMode st); cbn in *;
    repeat split; congruence.
Qed.

Lemma inited_screenshotUpdated (e : Env) (p : QPixmap) :
  accounts Inited guiCount windowsCreated (screenshotUpdated e p).
Proof.
  intros st HJ.
  destruct (StartMode_eqb (mStartMode st) GuiMode) eqn:Em.
  - assert (Hg : mStartMode st = GuiMode)
      by (destruct (mStartMode st); cbn in Em; congruence).
    rewrite (screenshotUpdated_gui_eq e p st Hg).
    destruct (inited_sound st HJ) as (_ & Hw & _).
    destruct (mMainWindow st) eqn:Ew; [|exfalso; apply (Hw Hg); reflexivity].
    eexists _, _, _. split; [reflexivity|]. split; [exact HJ | reflexivity].
  - assert (Hg : mStartMode st <> GuiMode)
      by (destruct (mStartMode st); cbn in Em; congruence).
    rewrite (screenshotUpdated_eq e p st Hg).
    destruct (accounts_emitExports Inited guiCount windowsCreated eq_refl
                windowsCreated_app e (inited_invokeExport e)
                (doSaveEmits e p (savePathOf st)) (beforeSave p st) HJ)
      as ([] & st2 & t2 & E2 & J2 & W2).
    rewrite E2. eexists _, _, _. split; [reflexivity|]. split; [exact J2|].
    change (ExportDoSave (savePathOf st) :: t2 ++ (if mNotify st then [] else [EmitAllDone]))
      with ([ExportDoSave (savePathOf st)] ++ t2 ++ (if mNotify st then [] else [EmitAllDone])).
    rewrite !windowsCreated_app. change (guiCount (beforeSave p st)) with (guiCount st) in W2.
    destruct (mNotify st); cbn; lia.
Qed.

Lemma inited_step (e : Env) (x : Event) :
  accounts Inited guiCount windowsCreated (step e x).
Proof.
  destruct x as [ev|name|m|]; cbn [step]; try slot_accounts.
  apply (accounts_emit Inited guiCount windowsCreated eq_refl windowsCreated_app).
  intros r.
  destruct r, ev; cbn [invoke];
    try (apply accounts_ret; reflexivity);
    try apply inited_screenshotUpdated;
    try (apply (accounts_doStartDragAndDrop Inited guiCount windowsCreated
                  eq_refl windowsCreated_app e (inited_invokeExport e));
         [reflexivity | intros; reflexivity]);
    slot_accounts.
Qed.

Lemma constructed_inited (e : Env) (em : ExportManager) (startMode : StartMode)
    (grabMode0 : GrabMode) (saveFileName : QString) (notifyOnGrab : bool) :
  Inited (constructed e em startMode grabMode0 saveFileName notifyOnGrab).
Proof.
  unfold Inited, constructed. cbn.
  destruct startMode; cbn; repeat split; congruence.
Qed.

(** X3.  From construction to destruction the object creates one main
    window if it ends in [GuiMode] and none otherwise, however often
    [dbusStartAgent] is called; and the destructor deletes exactly the
    window that was created. *)
Theorem main_window_is_created_once (e : Env) (em : ExportManager)
    (startMode : StartMode) (grabMode0 : GrabMode) (saveFileName : QString)
    (delayMsec : Z) (notifyOnGrab : bool) (xs : list (Env * Event)) :
  exists name st tr st' tr',
    construct e em startMode grabMode0 saveFileName delayMsec notifyOnGrab
      = Some (name, st, tr)
    /\ run xs st = Some (tt, st', tr')
    /\ windowsCreated (tr ++ tr')
       = (if StartMode_eqb (mStartMode st') GuiMode then 1 else 0)%nat
    /\ List.length (destructor st') = windowsCreated (tr ++ tr').
Proof.
  rewrite construct_eq.
  destruct (accounts_run Inited guiCount windowsCreated eq_refl windowsCreated_app
              inited_step xs _
              (constructed_inited e em startMode grabMode0 saveFileName notifyOnGrab))
    as ([] & st' & tr' & E & (Hg & Hw & Hi) & W).
  eexists _, _, _, st', tr'. split; [reflexivity|]. split; [exact E|].
  assert (H0 : windowsCreated (startupTrace e startMode delayMsec)
               = guiCount (constructed e em startMode grabMode0 saveFileName
                             notifyOnGrab))
    by (destruct startMode; reflexivity).
  rewrite windowsCreated_app, H0, Nat.add_comm, W.
  unfold guiCount, destructor. rewrite <- Hi.
  destruct (mMainWindow st'), (isGuiInited st'); cbn in *;
    split; congruence.
Qed.

Lemma reachable_inited (e : Env) (em : ExportManager) (startMode : StartMode)
    (grabMode0 : GrabMode) (saveFileName : QString) (delayMsec : Z)
    (notifyOnGrab : bool) (xs : list (Env * Event)) :
  exists name st tr st' tr',
    construct e em startMode grabMode0 saveFileName delayMsec notifyOnGrab
      = Some (name, st, tr)
    /\ run xs st = Some (tt, st', tr')
    /\ Inited st'.
Proof.
  rewrite construct_eq.
  destruct (accounts_run Inited guiCount windowsCreated eq_refl windowsCreated_app
              inited_step xs _
              (constructed_inited e em startMode grabMode0 saveFileName notifyOnGrab))
    as ([] & st' & tr' & E & J & _).
  eexists _, _, _, st', tr'. split; [reflexivity|]. split; assumption.
Qed.

(** X4.  In any state the object can reach, [dbusStartAgent] leaves it in
    [GuiMode] with the GUI initialised and a main window; it creates that
    window and queues a grab only when the object was not in [GuiMode]
    before, and a second call does nothing but set the quit-on-last-window
    flag again. *)
Theorem dbusStartAgent_enters_gui_once (e0 : Env) (em : ExportManager)
    (startMode : StartMode) (grabMode0 : GrabMode) (saveFileName : QString)
    (delayMsec : Z) (notifyOnGrab : bool) (xs : list (Env * Event)) :
  exists name st tr st' tr',
    construct e0 em startMode grabMode0 saveFileName delayMsec notifyOnGrab
      = Some (name, st, tr)
    /\ run xs st = Some (tt, st', tr')
    /\ forall e e' : Env,
         exists st1 w,
           dbusStartAgent e st'
           = Some (tt, st1,
                   SetQuitOnLastWindowClosed true ::
                   (if StartMode_eqb (mStartMode st') GuiMode then []
                    else [NewMainWindow (onClickAvailable w);
                          InvokeQueued doImageGrab]))
           /\ mStartMode st1 = GuiMode /\ isGuiInited st1 = true
           /\ mMainWindow st1 = Some w
           /\ dbusStartAgent e' st1
              = Some (tt, st1, [SetQuitOnLastWindowClosed true]).
Proof.
  destruct (reachable_inited e0 em startMode grabMode0 saveFileName delayMsec
              notifyOnGrab xs)
    as (name & st & tr & st' & tr' & E & R & (Hg & Hw & Hi)).
  exists name, st, tr, st', tr'. split; [exact E|]. split; [exact R|].
  intros e e'. rewrite dbusStartAgent_eq, initGui_eq.
  destruct st' as [em' sm nf fs fu og ow gi cs nc]. cbn in *. subst gi.
  destruct og as [g|]; [clear Hg | exfalso; apply Hg; reflexivity].
  destruct sm, ow as [w|]; cbn in *; try discriminate;
    first [ solve [ exists
                      (mkSpectacleCore em' GuiMode nf fs fu (Some g)
                         (Some (mkKSMainWindow (onClickGrabSupported e (kind g))))
                         true (cs ++ guiConnections) nc),
                      (mkKSMainWindow (onClickGrabSupported e (kind g)));
                    repeat split ]
          | solve [ eexists _, _; (split; [reflexivity|]); repeat split ] ].
Qed.

(** X5.  When a capture completes outside [GuiMode], the path handed to
    [doSave] is the stored URL only in [BackgroundMode] and only when that
    URL is valid and a local file; in [DBusMode], and for an invalid or
    remote URL, it is the null URL. *)
Theorem save_path_by_mode (e : Env) (p : QPixmap) (st : SpectacleCore) :
  Sound st -> mStartMode st <> GuiMode ->
  exists st' rest,
    screenshotUpdated e p st
    = Some (tt, st',
            ExportDoSave
              (match mStartMode st with
               | BackgroundMode =>
                   if isValid (mFileNameUrl st) && isLocalFile (mFileNameUrl st)
                   then mFileNameUrl st else QUrl_null
               | _ => QUrl_null
               end) :: rest).
Proof.
  intros Hs Hm. rewrite (screenshotUpdated_eq e p st Hm).
  destruct (keeps_emitExports (Notifying (mNotify st)) Quiet e
              (notifying_invokeExport (mNotify st) e)
              (doSaveEmits e p (savePathOf st)) (beforeSave p st)
              (notifying_beforeSave (mNotify st) p st (conj Hs eq_refl)))
    as ([] & st2 & t2 & E2 & _ & _).
  rewrite E2. exists st2. eexists. unfold savePathOf.
  destruct (mStartMode st); reflexivity.
Qed.

Lemma save_path_witness :
  exists st' rest,
    screenshotUpdated X11Env (Pixmap 1)
      (constructed X11Env noPixmap DBusMode FullScreen (QStr "/tmp/a.png") false)
    = Some (tt, st', ExportDoSave QUrl_null :: rest).
Proof.
  apply (save_path_by_mode X11Env (Pixmap 1)
           (constructed X11Env noPixmap DBusMode FullScreen (QStr "/tmp/a.png") false)).
  - apply constructed_sound.
  - discriminate.
Defined.

Lemma emitExports_errors (e : Env) (msgs : list QString) (st : SpectacleCore) :
  Wired st ->
  emitExports e (map ExportErrorMessage msgs) st
  = Some (tt, st, errorSinks (mStartMode st) msgs).
Proof.
  intros Hw. induction msgs as [|s msgs IH]; [reflexivity|].
  cbn [map emitExports errorSinks flat_map]. unfold bind at 1.
  unfold emitExport, bind, get. cbn [fromExport].
  rewrite (wired_listeners st (ErrorMessage TheExportManager s) Hw).
  cbn [baseConnections filter listens sender signal emitter signalOf
       Sender_eqb SignalName_eqb andb invokeEach receiver invokeExport].
  unfold bind, ret. rewrite showErrorMessage_eq, IH.
  cbn [app]. rewrite app_nil_r. unfold errorSinks.
  destruct (StartMode_eqb (mStartMode st) GuiMode); reflexivity.
Qed.

(** X6.  When [doSave] only reports errors, a capture outside [GuiMode]
    writes each error to the debug log and nothing else: no notification
    is created, and [allDone] follows exactly when the notify flag is off
    (with the flag on, nothing ends the run). *)
Theorem failed_save_is_only_logged (e : Env) (p : QPixmap) (st : SpectacleCore)
    (msgs : list QString) :
  Sound st -> Wired st -> mStartMode st <> GuiMode ->
  (forall path, doSaveEmits e p path = map ExportErrorMessage msgs) ->
  exists st' path,
    screenshotUpdated e p st
    = Some (tt, st',
            ExportDoSave path :: map DebugLine msgs
            ++ (if mNotify st then [] else [EmitAllDone]))
    /\ notificationCount st' = notificationCount st
    /\ pixmap (mExportManager st') = p.
Proof.
  intros Hs Hw Hm Hfail. rewrite (screenshotUpdated_eq e p st Hm), Hfail.
  assert (Hw' : Wired (beforeSave p st)).
  { unfold beforeSave. destruct (mNotify st).
    - eapply Wired_app; [exact Hw | | reflexivity]. reflexivity.
    - eapply Wired_same; [exact Hw | reflexivity]. }
  rewrite (emitExports_errors e msgs (beforeSave p st) Hw').
  exists (beforeSave p st), (savePathOf st).
  split; [|split; reflexivity].
  change (mStartMode (beforeSave p st)) with (mStartMode st).
  assert (Hsinks : errorSinks (mStartMode st) msgs = map DebugLine msgs).
  { unfold errorSinks. destruct (mStartMode st); try congruence;
      induction msgs as [|s msgs IH]; cbn; try rewrite IH; reflexivity. }
  rewrite Hsinks. reflexivity.
Qed.

Lemma failed_save_witness :
  exists st' path,
    screenshotUpdated failingSaveEnv (Pixmap 1) backgroundCore
    = Some (tt, st',
            ExportDoSave path :: map DebugLine [QStr "Cannot save"]
            ++ (if mNotify backgroundCore then [] else [EmitAllDone]))
    /\ notificationCount st' = notificationCount backgroundCore
    /\ pixmap (mExportManager st') = Pixmap 1.
Proof.
  apply (failed_save_is_only_logged failingSaveEnv (Pixmap 1) backgroundCore
           [QStr "Cannot save"]).
  - apply constructed_sound.
  - apply constructed_holding.
  - discriminate.
  - intros path. reflexivity.
Defined.

(** * Notifications per saved image *)

Ltac slot_listening :=
  let st := fresh "st" in
  let HJ := fresh "HJ" in
  intros st HJ; autorewrite with slots;
  open_state st; unfold Listening, Sound in *; cbn in HJ;
  decompose [and] HJ; clear HJ; subst;
  repeat match goal with
         | H : ?og <> None |- _ =>
             is_var og; destruct og; [clear H | exfalso; apply H; reflexivity]
         end;
  repeat match goal with
         | x : StartMode |- _ => destruct x
         | x : option KSMainWindow |- _ => destruct x
         end;
  try (exfalso; intuition congruence);
  cbn; split_ifs;
  (eexists _, _, _; split; [reflexivity|]; split;
   [apply Forall_Any
   | cbn; repeat split; auto; try congruence; try wired;
     try (rewrite ?filter_app, ?length_app; cbn; lia)]).

Lemma listening_invokeExport (m : StartMode) (b : bool) (n : nat) (e : Env)
    (r : Receiver) (ev : ExportEmission) :
  keeps (Listening m b n) Any (invokeExport e r ev).
Proof.
  destruct r, ev; cbn [invokeExport]; try apply keeps_ret; slot_listening.
Qed.

Lemma listening_beforeSave (m : StartMode) (b : bool) (n : nat) (p : QPixmap)
    (st : SpectacleCore) :
  Listening m b n st ->
  Listening m b (n + (if b then 1 else 0)) (beforeSave p st).
Proof.
  intros (Hs & Hw & Hm & Hb & Hn). unfold Listening, beforeSave.
  rewrite Hb. split; [exact Hs|]. destruct b; cbn.
  - split; [eapply Wired_app; [exact Hw | | reflexivity]; reflexivity|].
    repeat split; try assumption.
    rewrite filter_app, length_app, Hn. reflexivity.
  - split; [eapply Wired_same; [exact Hw | reflexivity]|].
    repeat split; try assumption. rewrite Hn. lia.
Qed.

Lemma listening_screenshotUpdated (m : StartMode) (b : bool) (n : nat)
    (e : Env) (p : QPixmap) :
  m <> GuiMode ->
  triple (Listening m b n) (screenshotUpdated e p) Any
    (fun _ => Listening m b (n + (if b then 1 else 0))).
Proof.
  intros Hm st HJ.
  assert (Hg : mStartMode st <> GuiMode)
    by (destruct HJ as (_ & _ & -> & _); exact Hm).
  rewrite (screenshotUpdated_eq e p st Hg).
  destruct (keeps_emitExports (Listening m b (n + (if b then 1 else 0))) Any e
              (listening_invokeExport m b (n + (if b then 1 else 0)) e)
              (doSaveEmits e p (savePathOf st)) (beforeSave p st)
              (listening_beforeSave m b n p st HJ))
    as ([] & st2 & t2 & E2 & F2 & J2).
  rewrite E2. eexists _, _, _. split; [reflexivity|]. split; [|exact J2].
  apply Forall_Any.
Qed.

Lemma listening_step (m : StartMode) (b : bool) (n : nat) (e : Env) (x : Event) :
  m <> GuiMode -> isDbusStartAgent x = false ->
  triple (Listening m b n) (step e x) Any
    (fun _ => Listening m b (n + (if b then captureCount x else 0))).
Proof.
  intros Hm Hx.
  assert (H0 : forall k : nat, (k + (if b then 0 else 0) = k)%nat)
    by (intros k; destruct b; lia).
  destruct x as [ev|name|g|]; cbn [step captureCount]; [| | |discriminate Hx];
    rewrite ?H0; try slot_listening.
  destruct ev; rewrite ?H0;
    try (apply keeps_emit; intros r; destruct r; cbn [invoke];
         try apply keeps_ret; try (drag_keeps listening_invokeExport);
         slot_listening).
  intros st HJ. unfold emit, bind, get.
  rewrite (wired_listeners st (PixmapChanged p) (proj1 (proj2 HJ))).
  cbn [baseConnections filter listens sender signal emitter signalOf
       Sender_eqb SignalName_eqb andb invokeEach receiver invoke].
  destruct (listening_screenshotUpdated m b n e p Hm st HJ)
    as ([] & st' & tr & E & F & J).
  unfold bind, ret. rewrite E.
  eexists _, _, _. split; [reflexivity|]. split; [apply Forall_Any | exact J].
Qed.

Lemma listening_run (m : StartMode) (b : bool) (xs : list (Env * Event)) (n : nat) :
  m <> GuiMode ->
  Forall (fun ex => isDbusStartAgent (snd ex) = false) xs ->
  triple (Listening m b n) (run xs) Any
    (fun _ => Listening m b (n + (if b then captures xs else 0))).
Proof.
  intros Hm Hxs. revert n.
  induction Hxs as [|[e x] xs Hx _ IH]; intros n; cbn [run].
  - intros st H. exists tt, st, []. split; [reflexivity|]. split; [constructor|].
    replace (n + (if b then captures [] else 0))%nat with n
      by (destruct b; cbn; lia). exact H.
  - eapply triple_bind; [apply (listening_step m b n e x Hm Hx)|].
    intros a. cbv beta.
    eapply triple_weaken; [apply IH | intros st H; exact H |].
    intros a' st H. cbv beta in H.
    replace (n + (if b then captures ((e, x) :: xs) else 0))%nat
      with (n + (if b then captureCount x else 0)
            + (if b then captures xs else 0))%nat; [exact H|].
    destruct b; [|lia]. destruct x as [[]| | |]; cbn; lia.
Qed.

Lemma addedLater_saved (u : QUrl) (c : Connection) :
  addedLater c = true ->
  listens (ImageSaved u) c = notifiesOnSave c
  /\ listens (ForceNotify u) c = false.
Proof.
  destruct c as [s sg r]. unfold addedLater, listens, notifiesOnSave. cbn.
  destruct s, sg, r; cbn; intros H; try discriminate H; split; reflexivity.
Qed.

Lemma notifiesOnSave_receiver (c : Connection) :
  notifiesOnSave c = true -> receiver c = slot_doNotify.
Proof.
  destruct c as [s sg r]. unfold notifiesOnSave. cbn.
  destruct s, sg, r; intros H; try discriminate H; reflexivity.
Qed.

(** An [imageSaved] signal reaches [doCopyPath] first, and then [doNotify]
    once per later connection. *)
Lemma saved_listeners (u : QUrl) (st : SpectacleCore) :
  Wired st ->
  exists L,
    filter (listens (ImageSaved u)) (connections st)
    = mkConnection TheExportManager sig_imageSaved slot_doCopyPath :: L
    /\ Forall (fun c => receiver c = slot_doNotify) L
    /\ List.length L = List.length (filter notifiesOnSave (connections st)).
Proof.
  intros (extra & E & F). rewrite forallb_forall in F.
  exists (filter notifiesOnSave extra). rewrite E, !filter_app. split.
  - cbn [baseConnections filter listens sender signal emitter signalOf
         Sender_eqb SignalName_eqb andb app]. f_equal.
    apply filter_ext_in. intros c Hc. apply (addedLater_saved u c (F c Hc)).
  - split; [|reflexivity].
    apply Forall_forall. intros c Hc. apply filter_In in Hc.
    apply notifiesOnSave_receiver. apply Hc.
Qed.

Lemma forced_listeners (u : QUrl) (st : SpectacleCore) :
  Wired st ->
  filter (listens (ForceNotify u)) (connections st)
  = [mkConnection TheExportManager sig_forceNotify slot_doNotify].
Proof.
  intros (extra & E & F). rewrite forallb_forall in F.
  rewrite E, filter_app.
  rewrite (filter_none (listens (ForceNotify u)) extra).
  - reflexivity.
  - intros c Hc. apply (addedLater_saved u c (F c Hc)).
Qed.

Lemma invokeEach_doNotify (e : Env) (u : QUrl) (L : list Connection) :
  Forall (fun c => receiver c = slot_doNotify) L ->
  forall st, mImageGrabber st <> None ->
    exists st' tr,
      invokeEach (invoke e) L (ImageSaved u) st = Some (tt, st', tr)
      /\ List.length (filter isNotification tr) = List.length L.
Proof.
  induction 1 as [|c L Hc _ IH]; intros st Hg; cbn [invokeEach].
  - exists st, []. split; reflexivity.
  - rewrite Hc. cbn [invoke]. unfold bind at 1. rewrite doNotify_eq.
    destruct (mImageGrabber st) as [g|] eqn:Eg; [|congruence].
    cbv beta iota zeta.
    match goal with
    | |- context [invokeEach (invoke e) L (ImageSaved u) ?s] =>
        destruct (IH s) as (st' & tr & E & N);
        [destruct st; cbn in *; congruence|]; rewrite E
    end.
    eexists _, _. split; [reflexivity|]. cbn. rewrite N. reflexivity.
Qed.

(** X7.  Outside [GuiMode], every capture handled with the notify flag on
    connects [imageSaved] to [doNotify] once more, and nothing disconnects
    it: after a run with [k] captures, one [imageSaved] signal sends [k]
    notifications (none when the flag is off). *)
Theorem each_capture_adds_a_notification (e0 : Env) (em : ExportManager)
    (startMode : StartMode) (grabMode0 : GrabMode) (saveFileName : QString)
    (delayMsec : Z) (notifyOnGrab : bool) (xs : list (Env * Event)) :
  startMode <> GuiMode ->
  Forall (fun ex => isDbusStartAgent (snd ex) = false) xs ->
  exists name st tr st' tr',
    construct e0 em startMode grabMode0 saveFileName delayMsec notifyOnGrab
      = Some (name, st, tr)
    /\ run xs st = Some (tt, st', tr')
    /\ forall (e : Env) (u : QUrl),
         exists st'' tr'',
           emit e (ImageSaved u) st' = Some (tt, st'', tr'')
           /\ List.length (filter isNotification tr'')
              = (if notifyOnGrab then captures xs else 0)%nat.
Proof.
  intros Hm Hxs. rewrite construct_eq.
  assert (H0 : Listening startMode notifyOnGrab 0
                 (constructed e0 em startMode grabMode0 saveFileName notifyOnGrab)).
  { destruct (constructed_holding e0 em startMode grabMode0 saveFileName
                notifyOnGrab) as (Hs & Hw & _).
    split; [exact Hs|]. split; [exact Hw|]. split; [reflexivity|].
    split; [reflexivity|]. destruct startMode; reflexivity. }
  destruct (listening_run startMode notifyOnGrab xs 0 Hm Hxs _ H0)
    as ([] & st' & tr' & E & _ & ((Hg & _) & Hw & _ & _ & Hn)).
  eexists _, _, _, st', tr'. split; [reflexivity|]. split; [exact E|].
  intros e u. unfold emit, bind, get.
  destruct (saved_listeners u st' Hw) as (L & EL & FL & NL).
  rewrite EL. cbn [invokeEach receiver invoke]. unfold bind. rewrite doCopyPath_eq.
  destruct (invokeEach_doNotify e u L FL st' Hg) as (st'' & tr'' & E'' & N'').
  rewrite E''. eexists _, _. split; [reflexivity|].
  cbn [app]. rewrite filter_app, length_app, N'', NL, Hn.
  destruct (copySaveLocationToClipboard e); reflexivity.
Qed.

Lemma each_capture_witness :
  exists name st tr st' tr',
    construct X11Env noPixmap DBusMode FullScreen QNull 0 true
      = Some (name, st, tr)
    /\ run twoCaptures st = Some (tt, st', tr')
    /\ forall (e : Env) (u : QUrl),
         exists st'' tr'',
           emit e (ImageSaved u) st' = Some (tt, st'', tr'')
           /\ List.length (filter isNotification tr'')
              = (if true then captures twoCaptures else 0)%nat.
Proof.
  apply (each_capture_adds_a_notification X11Env noPixmap DBusMode FullScreen
           QNull 0 true twoCaptures).
  - discriminate.
  - repeat constructor.
Defined.

(** X8.  In every state the object can reach, a [forceNotify] signal of
    the export manager sends exactly one notification, whatever the notify
    flag: its title follows the current grab mode, its text names the file
    and its folder (the Pictures folder by a phrase of its own), it offers
    the action Open and carries the saved URL. *)
Theorem forceNotify_sends_one_notification (e0 : Env) (em : ExportManager)
    (startMode : StartMode) (grabMode0 : GrabMode) (saveFileName : QString)
    (delayMsec : Z) (notifyOnGrab : bool) (xs : list (Env * Event)) :
  exists name st tr st' tr' g,
    construct e0 em startMode grabMode0 saveFileName delayMsec notifyOnGrab
      = Some (name, st, tr)
    /\ run xs st = Some (tt, st', tr')
    /\ mImageGrabber st' = Some g
    /\ forall (e : Env) (u : QUrl),
         exists st'',
           emit e (ForceNotify u) st'
           = Some (tt, st'',
                   [NotificationSendEvent
                      (mkKNotification (notificationCount st')
                         (titleFor (mGrabMode g)) (notificationText e u)
                         [i18n "Open"] [u])])
           /\ notificationCount st'' = S (notificationCount st').
Proof.
  destruct (reachable_holding e0 em startMode grabMode0 saveFileName delayMsec
              notifyOnGrab xs)
    as (name & st & tr & st' & tr' & E & R & ((Hg & _) & Hw & _)).
  destruct (mImageGrabber st') as [g|] eqn:Eg; [|congruence].
  exists name, st, tr, st', tr', g.
  split; [exact E|]. split; [exact R|]. split; [exact Eg|].
  intros e u. unfold emit, bind, get. rewrite (forced_listeners u st' Hw).
  cbn [invokeEach receiver invoke]. unfold bind, ret. rewrite doNotify_eq, Eg.
  eexists. split; reflexivity.
Qed.

(** * Answering a notification *)

Lemma ltb_succ (n : nat) : Nat.ltb n (S n) = true.
Proof. apply Nat.ltb_lt. lia. Qed.

Lemma olderThan_grow (n : nat) (cs l : list Connection) :
  forallb (olderThan n) cs = true ->
  forallb (olderThan (S n)) l = true ->
  forallb (olderThan (S n)) (cs ++ l) = true.
Proof.
  intros Hcs Hl. rewrite forallb_app, Hl, andb_true_r.
  rewrite forallb_forall in *. intros c Hc. specialize (Hcs c Hc).
  unfold olderThan in *. destruct (sender c); try reflexivity.
  apply Nat.ltb_lt in Hcs. apply Nat.ltb_lt. lia.
Qed.

Ltac fresh_connections :=
  first [ assumption
        | rewrite forallb_app;
          match goal with H : forallb _ _ = true |- _ => rewrite H end;
          reflexivity
        | apply olderThan_grow;
          [assumption
          | unfold olderThan; cbn [forallb sender]; rewrite !ltb_succ; reflexivity] ].

Ltac slot_fresh :=
  let st := fresh "st" in
  let HJ := fresh "HJ" in
  intros st HJ; autorewrite with slots;
  open_state st; unfold Fresh, Sound in *; cbn in HJ;
  decompose [and] HJ; clear HJ; subst;
  repeat match goal with
         | H : ?og <> None |- _ =>
             is_var og; destruct og; [clear H | exfalso; apply H; reflexivity]
         end;
  repeat match goal with
         | x : StartMode |- _ => destruct x
         | x : option KSMainWindow |- _ => destruct x
         end;
  try (exfalso; intuition congruence);
  cbn; split_ifs;
  (eexists _, _, _; split; [reflexivity|]; split;
   [apply Forall_Any
   | cbn; repeat split; auto; try congruence; try fresh_connections]).

Lemma fresh_invokeExport (e : Env) (r : Receiver) (ev : ExportEmission) :
  keeps Fresh Any (invokeExport e r ev).
Proof.
  destruct r, ev; cbn [invokeExport]; try apply keeps_ret; slot_fresh.
Qed.

Lemma fresh_beforeSave (p : QPixmap) (st : SpectacleCore) :
  Fresh st -> Fresh (beforeSave p st).
Proof.
  intros (Hs & Hf). split; [exact Hs|]. unfold beforeSave.
  destruct (mNotify st); cbn; [|exact Hf].
  rewrite forallb_app, Hf. reflexivity.
Qed.

Lemma fresh_screenshotUpdated (e : Env) (p : QPixmap) :
  keeps Fresh Any (screenshotUpdated e p).
Proof.
  intros st HJ.
  destruct (StartMode_eqb (mStartMode st) GuiMode) eqn:Em.
  - assert (Hg : mStartMode st = GuiMode)
      by (destruct (mStartMode st); cbn in Em; congruence).
    rewrite (screenshotUpdated_gui_eq e p st Hg).
    destruct HJ as ((Hgr & Hw & Hi) & Hf).
    destruct (mMainWindow st) eqn:Ew; [|exfalso; apply (Hw Hg); reflexivity].
    eexists _, _, _. split; [reflexivity|]. split; [apply Forall_Any|].
    split; [|exact Hf].
    revert Hgr Hw Hi Ew. open_state st. unfold Sound. cbn. intuition congruence.
  - assert (Hg : mStartMode st <> GuiMode)
      by (destruct (mStartMode st); cbn in Em; congruence).
    rewrite (screenshotUpdated_eq e p st Hg).
    destruct (keeps_emitExports Fresh Any e (fresh_invokeExport e)
                (doSaveEmits e p (savePathOf st)) (beforeSave p st)
                (fresh_beforeSave p st HJ))
      as ([] & st2 & t2 & E2 & F2 & J2).
    rewrite E2. eexists _, _, _. split; [reflexivity|]. split; [|exact J2].
    apply Forall_Any.
Qed.

Lemma fresh_step (e : Env) (x : Event) : keeps Fresh Any (step e x).
Proof.
  destruct x as [ev|name|m|]; cbn [step]; try slot_fresh.
  apply keeps_emit. intros r.
  destruct r, ev; cbn [invoke]; try apply keeps_ret;
    try apply fresh_screenshotUpdated;
    try (drag_keeps fresh_invokeExport); slot_fresh.
Qed.

Lemma constructed_fresh (e : Env) (em : ExportManager) (startMode : StartMode)
    (grabMode0 : GrabMode) (saveFileName : QString) (notifyOnGrab : bool) :
  Fresh (constructed e em startMode grabMode0 saveFileName notifyOnGrab).
Proof.
  split; [apply constructed_sound|]. destruct startMode; reflexivity.
Qed.

Lemma fresh_no_listener (ev : Emission) (n : nat) (cs : list Connection) :
  forallb (olderThan n) cs = true ->
  emitter ev = TheNotification n ->
  filter (listens ev) cs = [].
Proof.
  intros Hf He. apply filter_none. intros c Hc.
  rewrite forallb_forall in Hf. specialize (Hf c Hc).
  unfold listens, olderThan in *. rewrite He.
  destruct (sender c) as [| | | |id]; try reflexivity. cbn.
  destruct (Nat.eqb_spec id n) as [->|_]; [|reflexivity].
  rewrite Nat.ltb_irrefl in Hf. discriminate Hf.
Qed.

(** X9.  In every state the object can reach, [doNotify] for a file saved
    at [u] sends one notification; activating its Open action then runs
    the file at [u] and sets a 250 ms timer for [allDone], and closing it
    emits [allDone] once.  Neither changes the object. *)
Theorem notification_answer_ends_run (e0 : Env) (em : ExportManager)
    (startMode : StartMode) (grabMode0 : GrabMode) (saveFileName : QString)
    (delayMsec : Z) (notifyOnGrab : bool) (xs : list (Env * Event)) :
  exists name st tr st' tr',
    construct e0 em startMode grabMode0 saveFileName delayMsec notifyOnGrab
      = Some (name, st, tr)
    /\ run xs st = Some (tt, st', tr')
    /\ forall (e e' : Env) (u : QUrl),
         exists st'' n,
           doNotify e u st' = Some (tt, st'', [NotificationSendEvent n])
           /\ urls n = [u]
           /\ emit e' (Action1Activated (notificationId n)) st''
              = Some (tt, st'', [KRunOpen u; TimerSingleShot 250 allDone])
           /\ emit e' (Destroyed (notificationId n)) st''
              = Some (tt, st'', [EmitAllDone]).
Proof.
  rewrite construct_eq.
  destruct (keeps_run Fresh Any (fun _ => True) (fun e x _ => fresh_step e x) xs
              (proj2 (Forall_forall _ xs) (fun _ _ => I)) _
              (constructed_fresh e0 em startMode grabMode0 saveFileName notifyOnGrab))
    as ([] & st' & tr' & E & _ & ((Hg & _) & Hf)).
  eexists _, _, _, st', tr'. split; [reflexivity|]. split; [exact E|].
  intros e e' u. rewrite doNotify_eq.
  destruct (mImageGrabber st') as [g|] eqn:Eg; [|congruence].
  eexists _, _. split; [reflexivity|]. split; [reflexivity|].
  cbn [notificationId]. unfold emit, bind, get.
  cbn [connections set_connections set_notificationCount].
  rewrite !filter_app.
  rewrite (fresh_no_listener (Action1Activated (notificationCount st'))
             (notificationCount st') (connections st') Hf eq_refl).
  rewrite (fresh_no_listener (Destroyed (notificationCount st'))
             (notificationCount st') (connections st') Hf eq_refl).
  cbn [filter app]. unfold listens.
  cbn [sender signal emitter signalOf Sender_eqb SignalName_eqb].
  rewrite !Nat.eqb_refl.
  cbn [andb invokeEach receiver invoke]. split; reflexivity.
Qed.

(** * Drag and drop *)

Lemma nodrag_invokeExport (p : QPixmap) (e : Env) (r : Receiver)
    (ev : ExportEmission) :
  keeps (Holding p) NoDrag (invokeExport e r ev).
Proof.
  destruct r, ev; cbn [invokeExport]; try apply keeps_ret; slot_holding.
Qed.

(** X11.  In every state the object can reach, [doStartDragAndDrop] first
    calls [tempSave] of the export manager and runs the receivers of what
    that emits; none of them starts a drag or changes the stored pixmap.
    Then it starts one drag, with the URL [tempSave] returned and the stored
    pixmap, when that URL is valid, and returns without one when it is
    not. *)
Theorem drag_needs_valid_temp_file (e0 : Env) (em : ExportManager)
    (startMode : StartMode) (grabMode0 : GrabMode) (saveFileName : QString)
    (delayMsec : Z) (notifyOnGrab : bool) (xs : list (Env * Event)) :
  exists name st tr st' tr',
    construct e0 em startMode grabMode0 saveFileName delayMsec notifyOnGrab
      = Some (name, st, tr)
    /\ run xs st = Some (tt, st', tr')
    /\ forall e : Env,
         let saved := tempSave e (pixmap (mExportManager st')) in
         exists st'' nested,
           doStartDragAndDrop e st'
           = Some (tt, st'',
                   ExportTempSave :: nested
                   ++ (if isValid (fst saved)
                       then [DragExec (fst saved) (pixmap (mExportManager st'))]
                       else []))
           /\ Forall NoDrag nested
           /\ mExportManager st'' = mExportManager st'
           /\ (snd saved = [] -> nested = [] /\ st'' = st').
Proof.
  destruct (reachable_holding e0 em startMode grabMode0 saveFileName delayMsec
              notifyOnGrab xs)
    as (name & st & tr & st' & tr' & E & R & H).
  exists name, st, tr, st', tr'. split; [exact E|]. split; [exact R|].
  intros e saved. rewrite doStartDragAndDrop_eq. fold saved. cbv zeta.
  destruct (keeps_emitExports (Holding (lastPixmap xs (pixmap em))) NoDrag e
              (nodrag_invokeExport (lastPixmap xs (pixmap em)) e)
              (snd saved) st' H)
    as ([] & st'' & nested & E' & F' & (_ & _ & Hp')).
  assert (Hem : mExportManager st'' = mExportManager st').
  { destruct H as (_ & _ & Hp).
    destruct (mExportManager st''), (mExportManager st'). cbn in *. congruence. }
  rewrite E', Hem. exists st'', nested.
  split; [reflexivity|]. split; [exact F'|]. split; [exact Hem|].
  intros Hnone. rewrite Hnone in E'. cbn in E'. injection E' as <- <-.
  split; reflexivity.
Qed.

(** * GuiMode *)

Lemma ingui_invokeExport (e : Env) (r : Receiver) (ev : ExportEmission) :
  keeps InGui Interactive (invokeExport e r ev).
Proof.
  destruct r, ev; cbn [invokeExport]; try apply keeps_ret;
    slot_keeps ltac:(unfold InGui in *).
Qed.

Lemma ingui_step (e : Env) (x : Event) :
  fromNotification x = false -> keeps InGui Interactive (step e x).
Proof.
  intros Hx. destruct x as [ev|name|m|]; cbn [step].
  - apply keeps_emit. intros r.
    destruct r, ev; cbn [invoke]; try apply keeps_ret; try discriminate Hx;
      try (drag_keeps ingui_invokeExport);
      slot_keeps ltac:(unfold InGui in *).
  - slot_keeps ltac:(unfold InGui in *).
  - slot_keeps ltac:(unfold InGui in *).
  - slot_keeps ltac:(unfold InGui in *).
Qed.

(** X12.  Once in [GuiMode] the object stays there, and no capture,
    failed capture, error, request of the window or member call makes it
    call [doSave] or emit [grabFailed] or [allDone]: a capture is handed to
    the main window, a failed one shows the window again.  Only the answer
    to a notification can end the run. *)
Theorem gui_mode_never_saves_or_ends (xs : list (Env * Event))
    (st : SpectacleCore) :
  Sound st -> mStartMode st = GuiMode ->
  Forall (fun ex => fromNotification (snd ex) = false) xs ->
  exists st' tr,
    run xs st = Some (tt, st', tr)
    /\ Forall Interactive tr
    /\ mStartMode st' = GuiMode
    /\ forall (e : Env) (p : QPixmap),
         (exists st'',
             screenshotUpdated e p st'
             = Some (tt, st'', [MainWindowSetScreenshotAndShow p]))
         /\ screenshotFailed st' = Some (tt, st', [MainWindowShow]).
Proof.
  intros Hs Hm Hxs.
  destruct (keeps_run InGui Interactive (fun x => fromNotification x = false)
              ingui_step xs Hxs st (conj Hs Hm))
    as ([] & st' & tr & E & F & ((Hg & Hw & Hi) & Hm')).
  exists st', tr. split; [exact E|]. split; [exact F|]. split; [exact Hm'|].
  intros e p. rewrite (screenshotUpdated_gui_eq e p st' Hm'), screenshotFailed_eq, Hm'.
  destruct (mMainWindow st') eqn:Ew; [|exfalso; apply (Hw Hm'); reflexivity].
  split; [eexists|]; reflexivity.
Qed.

Lemma gui_mode_witness :
  exists st' tr,
    run guiSession guiCore = Some (tt, st', tr)
    /\ Forall Interactive tr
    /\ mStartMode st' = GuiMode
    /\ forall (e : Env) (p : QPixmap),
         (exists st'',
             screenshotUpdated e p st'
             = Some (tt, st'', [MainWindowSetScreenshotAndShow p]))
         /\ screenshotFailed st' = Some (tt, st', [MainWindowShow]).
Proof.
  apply (gui_mode_never_saves_or_ends guiSession guiCore).
  - apply constructed_sound.
  - reflexivity.
  - repeat constructor.
Defined.
